(** * junit_xml_to_allure: a shallow embedding of the JUnit XML -> Allure
    results converter and the properties of its conversion engine.

    Conventions of the embedding.
    - A Python [str] is a [string]; the character numbered [n] stands for the
      code point U+00[n] (the Latin-1 range of Unicode).
    - A Python [int] is a [Z]; a Python [float] is a binary64 [spec_float],
      with the IEEE operations of [SpecFloat] (round to nearest, ties to even).
    - [None] is [None]; a value that may be [None] is an [option].
    - An [xml.etree.ElementTree.Element] is an [Element]: tag, attributes,
      leading text and child elements.
    - A dict with a fixed shape is a record; a dict used as a mapping is an
      association list in insertion order ([dict_set] keeps the position of a
      key that is assigned again, as Python does).
    - A Python exception is a value of [exn]; code that can raise lives in
      [Exc] (pure) or in the monad [M] (which threads the [World]: the uuid
      and clock sources, the input tree and the files written). *)

From Stdlib Require Import ZArith Ascii String List Lia Bool.
From Stdlib Require Import Floats.SpecFloat.
From stdpp Require Import base option list strings gmap.

Local Open Scope Z_scope.

(* ================================================================== *)
(** * Python strings *)
(* ================================================================== *)

Module PyStr.

(** Truthiness of a [str]: non-empty. *)
Definition truthy (s : string) : bool :=
  match s with EmptyString => false | String _ _ => true end.

(** [x or d] where [x] is [None] or a [str]. *)
Definition or_str (x : option string) (d : string) : string :=
  match x with
  | Some s => if truthy s then s else d
  | None => d
  end.

(** [x or y] where both may be [None]: the first truthy one, else [y]. *)
Definition or_opt (x y : option string) : option string :=
  match x with
  | Some s => if truthy s then Some s else y
  | None => y
  end.

(** [str.isspace] on one code point below U+0100. *)
Definition isspace (c : ascii) : bool :=
  let n := N_of_ascii c in
  ((9 <=? n) && (n <=? 13) || (28 <=? n) && (n <=? 32)
   || (n =? 133) || (n =? 160))%N.

Fixpoint lstrip (s : string) : string :=
  match s with
  | EmptyString => EmptyString
  | String c s' => if isspace c then lstrip s' else s
  end.

Definition rstrip (s : string) : string :=
  String.rev (lstrip (String.rev s)).

(** [s.strip()] *)
Definition strip (s : string) : string := rstrip (lstrip s).

(** [s.startswith(p)] *)
Definition startswith (s p : string) : bool := String.prefix p s.

(** [s[n:]] *)
Fixpoint drop (n : nat) (s : string) : string :=
  match n, s with
  | O, _ => s
  | S n', String _ s' => drop n' s'
  | S _, EmptyString => EmptyString
  end.

(** [c in s] for a one-character [c]. *)
Fixpoint contains_char (c : ascii) (s : string) : bool :=
  match s with
  | EmptyString => false
  | String d s' => if Ascii.eqb c d then true else contains_char c s'
  end.

(** [s.rsplit(c, 1)] when [c] occurs in [s]: the text before and after the
    last occurrence; [None] when [c] does not occur. *)
Fixpoint rsplit1 (c : ascii) (s : string) : option (string * string) :=
  match s with
  | EmptyString => None
  | String d s' =>
      match rsplit1 c s' with
      | Some (p, q) => Some (String d p, q)
      | None => if Ascii.eqb c d then Some (EmptyString, s') else None
      end
  end.

(** The scan of [s.split(sep)] for a non-empty [sep]: [skip] counts the
    characters of a separator just matched that are still to be passed,
    [cur] is the part being read, reversed. Occurrences are taken from the
    left and do not overlap. *)
Fixpoint split_go (sep : string) (skip : nat) (cur : string) (s : string)
  : list string :=
  match s with
  | EmptyString => [String.rev cur]
  | String c s' =>
      match skip with
      | S k => split_go sep k cur s'
      | O =>
          if String.prefix sep s
          then String.rev cur :: split_go sep (Nat.pred (String.length sep)) EmptyString s'
          else split_go sep O (String c cur) s'
      end
  end.

(** [s.lower()] on code points below U+0100: the ASCII capitals and the
    Latin-1 capitals U+00C0..U+00DE (U+00D7, the multiplication sign, is not
    a letter). *)
Definition lower_char (c : ascii) : ascii :=
  let n := N_of_ascii c in
  if ((65 <=? n) && (n <=? 90)
      || (192 <=? n) && (n <=? 222) && negb (n =? 215))%N
  then ascii_of_N (n + 32) else c.

Fixpoint lower (s : string) : string :=
  match s with
  | EmptyString => EmptyString
  | String c s' => String (lower_char c) (lower s')
  end.

(** [sep.join(parts)] *)
Fixpoint join (sep : string) (parts : list string) : string :=
  match parts with
  | [] => EmptyString
  | [p] => p
  | p :: ps => p +:+ sep +:+ join sep ps
  end.

End PyStr.

(* ================================================================== *)
(** * Exceptions *)
(* ================================================================== *)

Inductive exn :=
| ValueError (msg : string)
| OverflowError (msg : string)
| NameError (name : string)
| ParseError
| SystemExit (code : Z).

(** The result of an expression that may raise. *)
Inductive Exc (A : Type) :=
| Ok (a : A)
| Raise (e : exn).
Arguments Ok {A} a.
Arguments Raise {A} e.

Definition exc_bind {A B} (x : Exc A) (f : A -> Exc B) : Exc B :=
  match x with Ok a => f a | Raise e => Raise e end.

(** [s.split(sep)]: an empty separator raises [ValueError]. *)
Definition py_split (s sep : string) : Exc (list string) :=
  if PyStr.truthy sep then Ok (PyStr.split_go sep O EmptyString s)
  else Raise (ValueError "empty separator").

(* ================================================================== *)
(** * ElementTree elements *)
(* ================================================================== *)

#[warnings="-register-all"]
Inductive Element :=
| Elem (tag : string) (attrib : list (string * string))
       (text : option string) (children : list Element).

Definition el_tag (e : Element) : string :=
  match e with Elem t _ _ _ => t end.
Definition el_attrib (e : Element) : list (string * string) :=
  match e with Elem _ a _ _ => a end.
Definition el_text (e : Element) : option string :=
  match e with Elem _ _ t _ => t end.
Definition el_children (e : Element) : list Element :=
  match e with Elem _ _ _ c => c end.

(** Lookup in a mapping kept as an association list. *)
Fixpoint dict_get {V} (d : list (string * V)) (k : string) : option V :=
  match d with
  | [] => None
  | (k', v) :: d' => if String.eqb k k' then Some v else dict_get d' k
  end.

(** [d[k] = v]: a key already present keeps its place. *)
Fixpoint dict_set {V} (d : list (string * V)) (k : string) (v : V)
  : list (string * V) :=
  match d with
  | [] => [(k, v)]
  | (k', v') :: d' =>
      if String.eqb k k' then (k, v) :: d' else (k', v') :: dict_set d' k v
  end.

(** [e.get(key)] *)
Definition el_get (e : Element) (key : string) : option string :=
  dict_get (el_attrib e) key.

(** [e.findall(tag)]: the direct children with that tag, in document order. *)
Definition el_findall (e : Element) (tag : string) : list Element :=
  filter (fun c => String.eqb (el_tag c) tag = true) (el_children e).

(** [e.find(tag)]: the first direct child with that tag, or [None]. *)
Definition el_find (e : Element) (tag : string) : option Element :=
  head (el_findall e tag).

(** [e.findall(".//" + tag)]: all descendants with that tag, in document
    order (the element itself is not a candidate). *)
Fixpoint el_descendants (e : Element) (tag : string) : list Element :=
  match e with
  | Elem _ _ _ cs =>
      (fix go (l : list Element) : list Element :=
         match l with
         | [] => []
         | c :: l' =>
             (if String.eqb (el_tag c) tag then [c] else [])
               ++ el_descendants c tag ++ go l'
         end) cs
  end.

(* ================================================================== *)
(** * Helpers of the converter *)
(* ================================================================== *)

(** The dicts [{"name": .., "value": ..}] and [{"name": .., "url": ..}]. *)
Record Label := mkLabel { label_name : string; label_value : string }.
Record Link := mkLink { link_name : string; link_url : string }.
Record Param := mkParam { param_name : string; param_value : string }.

(** [split_classname]: (package, class) of a dotted class name. *)
Definition split_classname (classname : string) : string * string :=
  if negb (PyStr.truthy classname) then (EmptyString, EmptyString)
  else if PyStr.contains_char "." classname then
    match PyStr.rsplit1 "." classname with
    | Some (pkg, cls) => (pkg, cls)
    | None => (EmptyString, classname)
    end
  else (EmptyString, classname).

(** [derive_suite_labels] *)
Definition derive_suite_labels (ts_name sep default_parent : string)
  : Exc (list Label) :=
  exc_bind
    (if PyStr.truthy ts_name
     then exc_bind (py_split ts_name sep) (fun ps => Ok (map PyStr.strip ps))
     else Ok [])
    (fun parts =>
       Ok (match parts with
           | p0 :: p1 :: p2 :: rest =>
               [mkLabel "parentSuite" p0; mkLabel "suite" p1;
                mkLabel "subSuite" (PyStr.join sep (p2 :: rest))]
           | [p0; p1] => [mkLabel "parentSuite" p0; mkLabel "suite" p1]
           | [p0] =>
               if PyStr.truthy p0
               then [mkLabel "parentSuite" default_parent; mkLabel "suite" p0]
               else []
           | [] => []
           end)).

(** [(x or "").strip()] *)
Definition strip_or_empty (x : option string) : string :=
  PyStr.strip (PyStr.or_str x EmptyString).

(** [map_status]: the Allure status and the [statusDetails] dict. *)
Definition map_status (tc_elem : Element) : string * list (string * string) :=
  let failure := el_find tc_elem "failure" in
  let error := el_find tc_elem "error" in
  let skipped := el_find tc_elem "skipped" in
  match failure with
  | Some failure =>
      let msg := strip_or_empty (el_get failure "message") in
      let text := strip_or_empty (el_text failure) in
      ("failed", [("message", msg); ("trace", text)])
  | None =>
  match error with
  | Some error =>
      let msg := strip_or_empty (el_get error "message") in
      let text := strip_or_empty (el_text error) in
      ("broken", [("message", msg); ("trace", text)])
  | None =>
  match skipped with
  | Some skipped =>
      let msg :=
        strip_or_empty
          (PyStr.or_opt (el_get skipped "message") (el_get skipped "type")) in
      let text := strip_or_empty (el_text skipped) in
      ("skipped", [("message", msg); ("trace", text)])
  | None => ("passed", [])
  end end end.

(** The loop shared by [collect_properties] and the suite-level copy of it in
    [convert_file]: [props[name] = value or ""] for each property with a
    truthy name. *)
Definition add_property (props : list (string * string)) (p : Element)
  : list (string * string) :=
  let name := el_get p "name" in
  let value := PyStr.or_str (el_get p "value") EmptyString in
  match name with
  | Some n => if PyStr.truthy n then dict_set props n value else props
  | None => props
  end.

(** [collect_properties] *)
Definition collect_properties (tc : Element) : list (string * string) :=
  match el_find tc "properties" with
  | Some props_elem => fold_left add_property (el_findall props_elem "property") []
  | None => []
  end.

Definition label_prefix : string := "allure.label.".
Definition link_prefix : string := "allure.link.".
Definition param_prefix : string := "allure.param.".

(** [map_properties_to_labels_links_params] *)
Fixpoint map_properties_to_labels_links_params (props : list (string * string))
  : list Label * list Link * list Param :=
  match props with
  | [] => ([], [], [])
  | (k, v) :: props' =>
      let '(labels, links, params) := map_properties_to_labels_links_params props' in
      if PyStr.startswith k label_prefix then
        (mkLabel (PyStr.drop (String.length label_prefix) k) v :: labels, links, params)
      else if PyStr.startswith k link_prefix then
        (labels, mkLink (PyStr.drop (String.length link_prefix) k) v :: links, params)
      else if PyStr.startswith k param_prefix then
        (labels, links, mkParam (PyStr.drop (String.length param_prefix) k) v :: params)
      else (labels, links, params)
  end.


(* ================================================================== *)
(** * Python floats: [float(str)], [*] and [int(float)] *)
(* ================================================================== *)

Module PyFloat.

Definition prec : Z := 53.
Definition emax : Z := 1024.

Definition digit_of (c : ascii) : option Z :=
  let n := Z.of_N (N_of_ascii c) in
  if (48 <=? n) && (n <=? 57) then Some (n - 48) else None.

(** The rest of a [digitpart] after its first digit: digits, each
    optionally preceded by one underscore. Returns the value read so far,
    the number of digits read and the unread text. *)
Fixpoint digits_go (acc : Z) (n : nat) (s : string) : Z * nat * string :=
  match s with
  | EmptyString => (acc, n, s)
  | String c s' =>
      match digit_of c with
      | Some d => digits_go (10 * acc + d) (S n) s'
      | None =>
          if Ascii.eqb c "_" then
            match s' with
            | String c' s'' =>
                match digit_of c' with
                | Some d => digits_go (10 * acc + d) (S n) s''
                | None => (acc, n, s)
                end
            | EmptyString => (acc, n, s)
            end
          else (acc, n, s)
      end
  end.

(** A [digitpart] continuing the value [acc], if the text starts with a
    digit. *)
Definition digitpart (acc : Z) (s : string) : option (Z * nat * string) :=
  match s with
  | String c s' =>
      match digit_of c with
      | Some d => Some (digits_go (10 * acc + d) 1%nat s')
      | None => None
      end
  | EmptyString => None
  end.

(** An optional sign: [true] for "-". *)
Definition sign (s : string) : bool * string :=
  match s with
  | String "-" s' => (true, s')
  | String "+" s' => (false, s')
  | _ => (false, s)
  end.

(** [number]: [digitpart ["." [digitpart]]] or ["." digitpart]. Returns the
    digits read as one integer and the number of them after the point. *)
Definition number (s : string) : option (Z * nat * string) :=
  match digitpart 0 s with
  | Some (i, _, String "." r) =>
      match digitpart i r with
      | Some res => Some res
      | None => Some (i, O, r)
      end
  | Some (i, _, r) => Some (i, O, r)
  | None =>
      match s with
      | String "." r => digitpart 0 r
      | _ => None
      end
  end.

(** [exponent]: "e" or "E", an optional sign and a [digitpart]; absent
    when the text is finished. *)
Definition exponent (s : string) : option Z :=
  match s with
  | EmptyString => Some 0
  | String c r =>
      if Ascii.eqb c "e" || Ascii.eqb c "E" then
        let '(neg, r') := sign r in
        match digitpart 0 r' with
        | Some (x, _, EmptyString) => Some (if neg then - x else x)
        | _ => None
        end
      else None
  end.

(** The binary64 nearest to [m * 10^e] for [m > 0] (ties to even), as
    [strtod] computes it. *)
Definition of_decimal (neg : bool) (m : Z) (e : Z) : spec_float :=
  match m with
  | Zpos p =>
      if 0 <=? e then binary_round prec emax neg (Pos.mul p (Z.to_pos (10 ^ e))) 0
      else
        let '(q, e', l) :=
          SFdiv_core_binary prec emax (Zpos p) 0 (10 ^ (- e)) 0 in
        binary_round_aux prec emax neg q e' l
  | _ => S754_zero neg
  end.

(** [float(s)] for a [str]: surrounding whitespace is dropped; "inf",
    "infinity" and "nan" are read in any case. *)
Definition py_float (s : string) : Exc spec_float :=
  let '(neg, r) := sign (PyStr.strip s) in
  let w := PyStr.lower r in
  if String.eqb w "inf" || String.eqb w "infinity" then Ok (S754_infinity neg)
  else if String.eqb w "nan" then Ok S754_nan
  else
    match number r with
    | Some (m, nfrac, r') =>
        match exponent r' with
        | Some x => Ok (of_decimal neg m (x - Z.of_nat nfrac))
        | None => Raise (ValueError "could not convert string to float")
        end
    | None => Raise (ValueError "could not convert string to float")
    end.

(** [x * y] *)
Definition mul (x y : spec_float) : spec_float := SFmul prec emax x y.

(** The float literal [1000.0]. *)
Definition f1000 : spec_float := binary_normalize prec emax 1000 0 false.

(** [int(x)]: truncation toward zero; infinities and NaN raise. *)
Definition py_int (x : spec_float) : Exc Z :=
  match x with
  | S754_zero _ => Ok 0
  | S754_finite s m e => Ok (cond_Zopp s (Z.shiftl (Zpos m) e))
  | S754_infinity _ => Raise (OverflowError "cannot convert float infinity to integer")
  | S754_nan => Raise (ValueError "cannot convert float NaN to integer")
  end.

End PyFloat.

(** [try: body  except Exception: return None] around a body that returns an
    optional value. [SystemExit] is not an [Exception] and passes through. *)
Definition try_except_none {A} (body : Exc (option A)) : Exc (option A) :=
  match body with
  | Ok r => Ok r
  | Raise (SystemExit c) => Raise (SystemExit c)
  | Raise _ => Ok None
  end.

(** [to_ms] *)
Definition to_ms_body (seconds_str : option string) : Exc (option Z) :=
  match seconds_str with
  | None => Ok None
  | Some s =>
      exc_bind (PyFloat.py_float s) (fun f =>
      exc_bind (PyFloat.py_int (PyFloat.mul f PyFloat.f1000)) (fun n =>
      Ok (Some n)))
  end.

Definition to_ms (seconds_str : option string) : Exc (option Z) :=
  try_except_none (to_ms_body seconds_str).

(* ================================================================== *)
(** * [hashlib.md5(s.encode("utf-8")).hexdigest()] *)
(* ================================================================== *)

Module MD5.

Definition w32 : Z := 4294967296.

Definition add32 (a b : Z) : Z := (a + b) mod w32.
Definition not32 (a : Z) : Z := Z.lxor a (w32 - 1).
Definition rotl32 (x c : Z) : Z :=
  Z.lor (Z.shiftl x c mod w32) (Z.shiftr x (32 - c)).

(** The per-round shift amounts and the sine table. *)
Definition shifts : list Z :=
  [7; 12; 17; 22; 7; 12; 17; 22; 7; 12; 17; 22; 7; 12; 17; 22;
   5; 9; 14; 20; 5; 9; 14; 20; 5; 9; 14; 20; 5; 9; 14; 20;
   4; 11; 16; 23; 4; 11; 16; 23; 4; 11; 16; 23; 4; 11; 16; 23;
   6; 10; 15; 21; 6; 10; 15; 21; 6; 10; 15; 21; 6; 10; 15; 21].

Definition sines : list Z :=
  [3614090360; 3905402710; 606105819; 3250441966;
   4118548399; 1200080426; 2821735955; 4249261313;
   1770035416; 2336552879; 4294925233; 2304563134;
   1804603682; 4254626195; 2792965006; 1236535329;
   4129170786; 3225465664; 643717713; 3921069994;
   3593408605; 38016083; 3634488961; 3889429448;
   568446438; 3275163606; 4107603335; 1163531501;
   2850285829; 4243563512; 1735328473; 2368359562;
   4294588738; 2272392833; 1839030562; 4259657740;
   2763975236; 1272893353; 4139469664; 3200236656;
   681279174; 3936430074; 3572445317; 76029189;
   3654602809; 3873151461; 530742520; 3299628645;
   4096336452; 1126891415; 2878612391; 4237533241;
   1700485571; 2399980690; 4293915773; 2240044497;
   1873313359; 4264355552; 2734768916; 1309151649;
   4149444226; 3174756917; 718787259; 3951481745].

(** The UTF-8 bytes of a code point below U+0100. *)
Definition utf8_char (c : ascii) : list Z :=
  let n := Z.of_N (N_of_ascii c) in
  if n <? 128 then [n] else [192 + n / 64; 128 + n mod 64].

Fixpoint utf8 (s : string) : list Z :=
  match s with
  | EmptyString => []
  | String c s' => utf8_char c ++ utf8 s'
  end.

(** [n] bytes of [x], least significant first. *)
Fixpoint le_bytes (n : nat) (x : Z) : list Z :=
  match n with
  | O => []
  | S n' => x mod 256 :: le_bytes n' (x / 256)
  end.

Fixpoint le_word (bs : list Z) : Z :=
  match bs with
  | [] => 0
  | b :: bs' => b + 256 * le_word bs'
  end.

(** The message followed by the bit 1, zeros up to 56 modulo 64 bytes and
    the bit length on 64 bits. *)
Definition pad (msg : list Z) : list Z :=
  let len := Z.of_nat (length msg) in
  msg ++ [128] ++ repeat 0 (Z.to_nat ((55 - len) mod 64))
      ++ le_bytes 8 ((8 * len) mod 2 ^ 64).

(** The sixteen words of block [i]. *)
Definition block (bytes : list Z) (i : nat) : list Z :=
  map (fun j => le_word (take 4 (drop (64 * i + 4 * j) bytes))) (seq 0 16).

Definition state : Type := Z * Z * Z * Z.

Definition step (m : list Z) (st : state) (i : nat) : state :=
  let '(a, b, c, d) := st in
  let zi := Z.of_nat i in
  let '(f, g) :=
    if zi <? 16 then (Z.lor (Z.land b c) (Z.land (not32 b) d), zi)
    else if zi <? 32 then
      (Z.lor (Z.land d b) (Z.land (not32 d) c), (5 * zi + 1) mod 16)
    else if zi <? 48 then (Z.lxor (Z.lxor b c) d, (3 * zi + 5) mod 16)
    else (Z.lxor c (Z.lor b (not32 d)), (7 * zi) mod 16) in
  let f' := add32 (add32 (add32 f a) (nth i sines 0)) (nth (Z.to_nat g) m 0) in
  (d, add32 b (rotl32 f' (nth i shifts 0)), b, c).

Definition compress (bytes : list Z) (st : state) (i : nat) : state :=
  let '(a0, b0, c0, d0) := st in
  let '(a, b, c, d) := fold_left (step (block bytes i)) (seq 0 64) st in
  (add32 a0 a, add32 b0 b, add32 c0 c, add32 d0 d).

Definition init : state := (1732584193, 4023233417, 2562383102, 271733878).

Definition digest (msg : list Z) : list Z :=
  let bytes := pad msg in
  let '(a, b, c, d) :=
    fold_left (compress bytes) (seq 0 (length bytes / 64)) init in
  le_bytes 4 a ++ le_bytes 4 b ++ le_bytes 4 c ++ le_bytes 4 d.

Definition hex_digit (n : Z) : ascii :=
  ascii_of_N (Z.to_N (if n <? 10 then 48 + n else 87 + n)).

Fixpoint hex (bs : list Z) : string :=
  match bs with
  | [] => EmptyString
  | b :: bs' => String (hex_digit (b / 16)) (String (hex_digit (b mod 16)) (hex bs'))
  end.

Definition hexdigest (s : string) : string := hex (digest (utf8 s)).

End MD5.

(** [stable_hash] *)
Definition stable_hash (s : string) : string := MD5.hexdigest s.

(* ================================================================== *)
(** * Output documents *)
(* ================================================================== *)

(** The dict written to [<uuid>-result.json]. *)
Record Result := mkResult {
  r_uuid : string;
  r_historyId : string;
  r_name : string;
  r_fullName : string;
  r_status : string;
  r_statusDetails : list (string * string);
  r_stage : string;
  r_steps : list unit;
  r_attachments : list unit;
  r_parameters : list Param;
  r_labels : list Label;
  r_links : list Link;
  r_start : Z;
  r_stop : Z
}.

(** The dict written to [<uuid>-container.json]. *)
Record Container := mkContainer {
  c_uuid : string;
  c_name : string;
  c_children : list string;
  c_befores : list unit;
  c_afters : list unit;
  c_links : list Link;
  c_start : Z;
  c_stop : Z
}.

(** The dict written to [executor.json]. *)
Record Executor := mkExecutor {
  x_name : string;
  x_type : string;
  x_buildName : string;
  x_buildUrl : string;
  x_reportUrl : string
}.

Inductive Doc :=
| ResultDoc (r : Result)
| ContainerDoc (c : Container)
| ExecutorDoc (x : Executor).

(* ================================================================== *)
(** * The world and the monad of effects *)
(* ================================================================== *)

(** What is found at an input path: a file, a directory (with the sorted
    paths of [rglob("*.xml")] under it) or nothing. *)
Inductive PathKind :=
| IsFile
| IsDir (rglob_xml : list string)
| Missing.

Record World := mkWorld {
  uuid_src : nat -> string;      (** the tokens [str(uuid.uuid4())] returns, call by call *)
  uuid_calls : nat;
  clock_src : nat -> Z;          (** the readings of [ms_now()], call by call *)
  clock_calls : nat;
  path_kind : string -> PathKind;        (** the input tree *)
  xml_docs : string -> option Element;   (** the root of a well-formed input file *)
  resolve : string -> string;            (** [Path.resolve] *)
  dirs : list string;            (** the directories created *)
  writes : list (string * Doc);  (** the JSON files written, oldest first *)
  stdout : list string;
  stderr : list string
}.

(** The output directory as it stands after the writes: a later write to a
    path replaces an earlier one. *)
Definition disk (w : World) : gmap string Doc :=
  foldl (fun m pd => <[pd.1 := pd.2]> m) ∅ (writes w).

Definition M (A : Type) : Type := World -> Exc A * World.

Definition raise {A} (e : exn) : M A := fun w => (Raise e, w).
Definition lift {A} (x : Exc A) : M A := fun w => (x, w).

Definition ret {A} (a : A) : M A := fun w => (Ok a, w).
Definition bind {A B} (m : M A) (f : A -> M B) : M B := fun w =>
  match m w with
  | (Ok a, w') => f a w'
  | (Raise e, w') => (Raise e, w')
  end.

Declare Scope M_scope.
Delimit Scope M_scope with M.
Bind Scope M_scope with M.
Notation "x ← y ; z" := (bind y (fun x => z))
  (at level 20, y at level 100, z at level 200, only parsing) : M_scope.
Notation "' x ← y ; z" := (bind y (fun x => z))
  (at level 20, x pattern, y at level 100, z at level 200, only parsing) : M_scope.
Notation "x ;; z" := (bind x (fun _ => z))
  (at level 100, z at level 200, only parsing, right associativity) : M_scope.
Local Open Scope M_scope.

(** [for x in l: s = body(x, s)] *)
Fixpoint for_each {A S} (body : A -> S -> M S) (l : list A) (s : S) : M S :=
  match l with
  | [] => ret s
  | x :: l' => s' ← body x s; for_each body l' s'
  end.

(** [str(uuid.uuid4())] *)
Definition uuid4 : M string := fun w =>
  (Ok (uuid_src w (uuid_calls w)),
   mkWorld (uuid_src w) (S (uuid_calls w)) (clock_src w) (clock_calls w)
           (path_kind w) (xml_docs w) (resolve w) (dirs w) (writes w)
           (stdout w) (stderr w)).

(** [ms_now] *)
Definition ms_now : M Z := fun w =>
  (Ok (clock_src w (clock_calls w)),
   mkWorld (uuid_src w) (uuid_calls w) (clock_src w) (S (clock_calls w))
           (path_kind w) (xml_docs w) (resolve w) (dirs w) (writes w)
           (stdout w) (stderr w)).

(** [with open(path, "w") as f: json.dump(doc, f, ...)]. The world is that
    of a run whose output directory can be created and written: [open] and
    [mkdir] succeed. A run in which one of them fails ends there with the
    [OSError] it raises, which is not among the exceptions of [exn]. *)
Definition write_json (path : string) (doc : Doc) : M unit := fun w =>
  (Ok tt,
   mkWorld (uuid_src w) (uuid_calls w) (clock_src w) (clock_calls w)
           (path_kind w) (xml_docs w) (resolve w) (dirs w)
           (writes w ++ [(path, doc)]) (stdout w) (stderr w)).

(** [path.mkdir(parents=True, exist_ok=True)] *)
Definition mkdir (path : string) : M unit := fun w =>
  (Ok tt,
   mkWorld (uuid_src w) (uuid_calls w) (clock_src w) (clock_calls w)
           (path_kind w) (xml_docs w) (resolve w) (path :: dirs w)
           (writes w) (stdout w) (stderr w)).

(** [print(msg)] *)
Definition print (msg : string) : M unit := fun w =>
  (Ok tt,
   mkWorld (uuid_src w) (uuid_calls w) (clock_src w) (clock_calls w)
           (path_kind w) (xml_docs w) (resolve w) (dirs w)
           (writes w) (stdout w ++ [msg]) (stderr w)).

(** [print(msg, file=<stderr>)] *)
Definition print_err (msg : string) : M unit := fun w =>
  (Ok tt,
   mkWorld (uuid_src w) (uuid_calls w) (clock_src w) (clock_calls w)
           (path_kind w) (xml_docs w) (resolve w) (dirs w)
           (writes w) (stdout w) (stderr w ++ [msg])).

(** [ET.parse(path).getroot()]: a file that is not well-formed raises. *)
Definition et_parse (path : string) : M Element := fun w =>
  match xml_docs w path with
  | Some root => (Ok root, w)
  | None => (Raise ParseError, w)
  end.

(** The components of a POSIX path as [pathlib] keeps them when it parses
    the text: the text is cut at every slash, and the empty components (of
    a leading, doubled or trailing slash) and the components "." are
    dropped. *)
Definition path_parts (p : string) : list string :=
  filter (fun c => c <> EmptyString /\ c <> ".") (PyStr.split_go "/" O EmptyString p).

(** [Path.name]: the final component; empty for the root and for ".". *)
Definition path_name (p : string) : string :=
  default EmptyString (last (path_parts p)).

(** The root [pathlib] keeps: exactly two leading slashes are kept as they
    are, any other number of leading slashes is one slash. *)
Definition path_root (p : string) : string :=
  match p with
  | String "/" (String "/" (String "/" _)) => "/"
  | String "/" (String "/" _) => "//"
  | String "/" _ => "/"
  | _ => EmptyString
  end.

(** What [str(Path(dir) / name)] puts before [name], for a name of one
    component: the root and the components of [dir] joined by slashes, and
    a slash after the last component. Nothing for an empty [dir] or ".". *)
Definition path_prefix (dir : string) : string :=
  let body := PyStr.join "/" (path_parts dir) in
  path_root dir +:+ (if PyStr.truthy body then body +:+ "/" else EmptyString).

(** [str(out_dir / name)] for a name of one component, as are the names the
    converter joins to the output directory: a token of [uuid4] followed by
    a fixed suffix, and [executor.json]. *)
Definition path_join (dir name : string) : string := path_prefix dir +:+ name.

(** [Path.suffix] and [Path.stem]: the name is cut at its last dot unless
    that dot is its first or its last character. *)
Definition path_suffix (p : string) : string :=
  match PyStr.rsplit1 "." (path_name p) with
  | Some (String _ _, String c q) => String "." (String c q)
  | _ => EmptyString
  end.

Definition path_stem (p : string) : string :=
  match PyStr.rsplit1 "." (path_name p) with
  | Some (String c s, String _ _) => String c s
  | _ => path_name p
  end.

(* ================================================================== *)
(** * Core conversion *)
(* ================================================================== *)

(** [x or y] on integers: [0] is falsy. *)
Definition or_int (x y : Z) : Z := if x =? 0 then y else x.

(** [testcase_timing] *)
Definition testcase_timing (tc : Element) (suite_start_ms : Z) : Exc (Z * Z) :=
  exc_bind (to_ms (el_get tc "time")) (fun duration =>
  match duration with
  | None =>
      let start := suite_start_ms in
      let stop := Z.max (start + 1) start in
      Ok (start, stop)
  | Some duration =>
      let start := suite_start_ms in
      let stop := start + duration in
      Ok (start, stop)
  end).

(** [[x for x in xs if x]] *)
Definition truthy_parts (xs : list string) : list string :=
  filter (fun x => PyStr.truthy x = true) xs.

(** The arguments of [convert_file] that stay fixed. *)
Record Config := mkConfig {
  out_dir : string;
  suite_sep : string;
  default_parent : string;
  framework_name : string
}.

(** The body of the loop over the test cases of a suite. The loop carries
    [last_stop] and the [container] dict it mutates. *)
Definition convert_testcase (cfg : Config) (suite_start : Z)
    (suite_labels sp_labels : list Label) (sp_links : list Link)
    (tc : Element) (st : Z * Container) : M (Z * Container) :=
  let '(last_stop, container) := st in
  let classname := PyStr.or_str (el_get tc "classname") "" in
  let name := PyStr.or_str (el_get tc "name") "test" in
  let '(pkg, cls) := split_classname classname in
  let method := name in
  let '(status, statusDetails) := map_status tc in
  '(start, stop) ← lift (testcase_timing tc (or_int last_stop suite_start));
  let last_stop := stop in
  let props := collect_properties tc in
  let '(p_labels, p_links, params) := map_properties_to_labels_links_params props in
  tr_uuid ← uuid4;
  let full_name := PyStr.join "." (truthy_parts [pkg; cls; method]) in
  let history_id :=
    stable_hash (if PyStr.truthy full_name then full_name
                 else classname +:+ "::" +:+ name) in
  let labels :=
    [mkLabel "framework" (framework_name cfg); mkLabel "language" "unknown"]
      ++ (if PyStr.truthy pkg then [mkLabel "package" pkg] else [])
      ++ (if PyStr.truthy cls then [mkLabel "testClass" cls] else [])
      ++ (if PyStr.truthy method then [mkLabel "testMethod" method] else [])
      ++ suite_labels ++ sp_labels ++ p_labels in
  let result :=
    {| r_uuid := tr_uuid;
       r_historyId := history_id;
       r_name := method;
       r_fullName := if PyStr.truthy full_name then full_name else method;
       r_status := status;
       r_statusDetails := statusDetails;
       r_stage := "finished";
       r_steps := [];
       r_attachments := [];
       r_parameters := params;
       r_labels := labels;
       r_links := sp_links ++ p_links;
       r_start := start;
       r_stop := stop |} in
  write_json (path_join (out_dir cfg) (tr_uuid +:+ "-result.json")) (ResultDoc result);;
  ret (last_stop,
        mkContainer (c_uuid container) (c_name container)
                    (c_children container ++ [tr_uuid])
                    (c_befores container) (c_afters container)
                    (c_links container) (c_start container)
                    (Z.max (c_stop container) stop)).

(** The properties of a suite, read by the copy of [collect_properties]
    inlined in [convert_file]. *)
Definition suite_properties (ts : Element) : list (string * string) :=
  match el_find ts "properties" with
  | Some sp => fold_left add_property (el_findall sp "property") []
  | None => []
  end.

(** The body of the loop over suites in [convert_file]. *)
Definition convert_suite (xml_path : string) (cfg : Config) (ts : Element)
  : M unit :=
  let ts_name := PyStr.or_str (el_get ts "name") (path_stem xml_path) in
  suite_uuid ← uuid4;
  suite_start ← ms_now;
  let container :=
    {| c_uuid := suite_uuid;
       c_name := ts_name;
       c_children := [];
       c_befores := [];
       c_afters := [];
       c_links := [];
       c_start := suite_start;
       c_stop := suite_start |} in
  suite_labels ← lift (derive_suite_labels ts_name (suite_sep cfg) (default_parent cfg));
  let suite_props := suite_properties ts in
  let '(sp_labels, sp_links, _) := map_properties_to_labels_links_params suite_props in
  let last_stop := suite_start in
  '(last_stop, container) ←
    for_each (convert_testcase cfg suite_start suite_labels sp_labels sp_links)
             (el_findall ts "testcase") (last_stop, container);
  write_json (path_join (out_dir cfg) (suite_uuid +:+ "-container.json"))
             (ContainerDoc container).

(** The suites of a document: the root itself, the [testsuite] children of a
    [testsuites] root, or every [testsuite] below any other root. *)
Definition suites_of (root : Element) : list Element :=
  if String.eqb (el_tag root) "testsuite" then [root]
  else if String.eqb (el_tag root) "testsuites" then el_findall root "testsuite"
  else el_descendants root "testsuite".

(** [convert_file] *)
Definition convert_file (xml_path : string) (cfg : Config) : M unit :=
  root ← et_parse xml_path;
  for_each (fun ts (_ : unit) => convert_suite xml_path cfg ts) (suites_of root) tt.

(** [write_executor] with its default arguments. *)
Definition write_executor (out_dir : string) : M unit :=
  let executor :=
    {| x_name := "XML Converter"; x_type := "other";
       x_buildName := ""; x_buildUrl := ""; x_reportUrl := "" |} in
  write_json (path_join out_dir "executor.json") (ExecutorDoc executor).

(** [find_xml_files] *)
Definition find_xml_files (input_path : string) : M (list string) := fun w =>
  match path_kind w input_path with
  | IsFile =>
      if String.eqb (PyStr.lower (path_suffix input_path)) ".xml"
      then (Ok [input_path], w) else (Ok [], w)
  | IsDir found => (Ok found, w)
  | Missing => (Ok [], w)
  end.

(** The names bound in the module's global namespace: the imports at the
    top of the file and the functions it defines. *)
Definition module_globals : list string :=
  ["argparse"; "json"; "os"; "re"; "time"; "uuid"; "hashlib"; "ET"; "Path";
   "Dict"; "List"; "Tuple"; "Optional";
   "ms_now"; "stable_hash"; "split_classname"; "derive_suite_labels";
   "map_status"; "to_ms"; "testcase_timing"; "collect_properties";
   "map_properties_to_labels_links_params"; "convert_file"; "write_executor";
   "find_xml_files"; "main"].

(** Evaluating a global name that is not a builtin: [NameError] unless the
    module binds it. *)
Definition global_name (name : string) : M unit :=
  if bool_decide (name ∈ module_globals) then ret tt
  else raise (NameError name).

(** The parsed command line. *)
Record Args := mkArgs {
  arg_input : string;
  arg_output : string;
  arg_suite_split : string;
  arg_default_parent : string;
  arg_framework_name : string;
  arg_write_executor : bool
}.

(** The body of [main] from the line after [args = ap.parse_args()]: what
    [main] does once [argparse] has accepted the command line. A command
    line that [argparse] refuses (or [--help]) leaves through [argparse]'s
    own [SystemExit] and never reaches this body. *)
Definition main (args : Args) : M unit :=
  let in_path := arg_input args in
  let out_dir := arg_output args in
  mkdir out_dir;;
  files ← find_xml_files in_path;
  (if bool_decide (files = []) then
     global_name "sys";;
     print_err "No XML files found.";;
     raise (SystemExit 2)
   else ret tt);;
  for_each (fun p (_ : unit) =>
              convert_file p (mkConfig out_dir (arg_suite_split args)
                                       (arg_default_parent args)
                                       (arg_framework_name args)))
           files tt;;
  (if arg_write_executor args then write_executor out_dir else ret tt);;
  (fun w => print ("Wrote Allure results to: " +:+ resolve w out_dir) w).

(** The exit status of the interpreter: 0 when [main] returns, the code of a
    [SystemExit], 1 for any other uncaught exception. *)
Definition exit_status (r : Exc unit) : Z :=
  match r with
  | Ok _ => 0
  | Raise (SystemExit code) => code
  | Raise _ => 1
  end.

(* ================================================================== *)
(** * Vocabulary of the properties *)
(* ================================================================== *)

(** The span [testcase_timing] adds to the cursor. *)
Definition span_ms (tc : Element) : Z :=
  match to_ms (el_get tc "time") with
  | Ok (Some d) => d
  | _ => 1
  end.

(** The world after some uuid draws, clock readings and writes. *)
Definition with_run (w : World) (n c : nat) (ws : list (string * Doc)) : World :=
  mkWorld (uuid_src w) n (clock_src w) c (path_kind w) (xml_docs w)
          (resolve w) (dirs w) ws (stdout w) (stderr w).

Definition result_path (cfg : Config) (u : string) : string :=
  path_join (out_dir cfg) (u +:+ "-result.json").
Definition container_path (cfg : Config) (u : string) : string :=
  path_join (out_dir cfg) (u +:+ "-container.json").

(** The name and class name [convert_file] reads from a test case. *)
Definition case_name (tc : Element) : string :=
  PyStr.or_str (el_get tc "name") "test".
Definition case_classname (tc : Element) : string :=
  PyStr.or_str (el_get tc "classname") "".

(** The fully-qualified name of a test case. *)
Definition case_full_name (tc : Element) : string :=
  let pc := split_classname (case_classname tc) in
  PyStr.join "." (truthy_parts [pc.1; pc.2; case_name tc]).

(** The labels of a result that do not come from the properties of its
    test case. *)
Definition fixed_labels (cfg : Config) (suite_labels sp_labels : list Label)
    (tc : Element) : list Label :=
  let pc := split_classname (case_classname tc) in
  [mkLabel "framework" (framework_name cfg); mkLabel "language" "unknown"]
    ++ (if PyStr.truthy pc.1 then [mkLabel "package" pc.1] else [])
    ++ (if PyStr.truthy pc.2 then [mkLabel "testClass" pc.2] else [])
    ++ (if PyStr.truthy (case_name tc) then [mkLabel "testMethod" (case_name tc)] else [])
    ++ suite_labels ++ sp_labels.

(** The result document the loop body writes for [tc], given the token it
    draws and the cursor it starts from. *)
Definition case_result (cfg : Config) (suite_labels sp_labels : list Label)
    (sp_links : list Link) (tc : Element) (tr_uuid : string) (start : Z)
  : Result :=
  let ex := map_properties_to_labels_links_params (collect_properties tc) in
  let full_name := case_full_name tc in
  {| r_uuid := tr_uuid;
     r_historyId :=
       stable_hash (if PyStr.truthy full_name then full_name
                    else case_classname tc +:+ "::" +:+ case_name tc);
     r_name := case_name tc;
     r_fullName := if PyStr.truthy full_name then full_name else case_name tc;
     r_status := (map_status tc).1;
     r_statusDetails := (map_status tc).2;
     r_stage := "finished";
     r_steps := [];
     r_attachments := [];
     r_parameters := ex.2;
     r_labels := fixed_labels cfg suite_labels sp_labels tc ++ ex.1.1;
     r_links := sp_links ++ ex.1.2;
     r_start := start;
     r_stop := start + span_ms tc |}.

(** The container after one more result. *)
Definition add_child (c : Container) (r : Result) : Container :=
  mkContainer (c_uuid c) (c_name c) (c_children c ++ [r_uuid r])
              (c_befores c) (c_afters c) (c_links c) (c_start c)
              (Z.max (c_stop c) (r_stop r)).

(** The results of the cases [tcs], the first of them drawing token number
    [n], the loop entering with [last_stop = cur]. *)
Fixpoint suite_results (cfg : Config) (suite_start : Z)
    (suite_labels sp_labels : list Label) (sp_links : list Link)
    (us : nat -> string) (n : nat) (cur : Z) (tcs : list Element)
  : list Result :=
  match tcs with
  | [] => []
  | tc :: tcs' =>
      let r := case_result cfg suite_labels sp_labels sp_links tc (us n)
                           (or_int cur suite_start) in
      r :: suite_results cfg suite_start suite_labels sp_labels sp_links
                         us (S n) (r_stop r) tcs'
  end.

(** The name of a suite: its [name] attribute, else the stem of the file. *)
Definition suite_name (xml_path : string) (ts : Element) : string :=
  PyStr.or_str (el_get ts "name") (path_stem xml_path).

(** The container as the loop over the cases finds it. *)
Definition empty_container (u name : string) (start : Z) : Container :=
  mkContainer u name [] [] [] [] start start.

(** The labels and links a suite gets from its own properties. *)
Definition suite_prop_labels (ts : Element) : list Label :=
  (map_properties_to_labels_links_params (suite_properties ts)).1.1.
Definition suite_prop_links (ts : Element) : list Link :=
  (map_properties_to_labels_links_params (suite_properties ts)).1.2.

(** The results a suite writes in world [w], given its hierarchy labels. *)
Definition results_of_suite (cfg : Config) (ts : Element) (w : World)
    (suite_labels : list Label) : list Result :=
  suite_results cfg (clock_src w (clock_calls w)) suite_labels
                (suite_prop_labels ts) (suite_prop_links ts)
                (uuid_src w) (S (uuid_calls w)) (clock_src w (clock_calls w))
                (el_findall ts "testcase").

(** The container a suite writes. *)
Definition container_of_suite (xml_path : string) (cfg : Config) (ts : Element)
    (w : World) (suite_labels : list Label) : Container :=
  foldl add_child
        (empty_container (uuid_src w (uuid_calls w)) (suite_name xml_path ts)
                         (clock_src w (clock_calls w)))
        (results_of_suite cfg ts w suite_labels).

(** The entries the results add to the log of writes. *)
Definition result_writes (cfg : Config) (rs : list Result) : list (string * Doc) :=
  map (fun r => (result_path cfg (r_uuid r), ResultDoc r)) rs.

(** The key [convert_file] hashes into [historyId], as a function of the
    class name and the name of a case. *)
Definition history_key (classname name : string) : string :=
  let pc := split_classname classname in
  let full_name := PyStr.join "." (truthy_parts [pc.1; pc.2; name]) in
  if PyStr.truthy full_name then full_name else classname +:+ "::" +:+ name.

(** The nearest integer to [num / den] for [den > 0], ties to even: what
    [round] means for the product of a duration by 1000. *)
Definition round_div (num den : Z) : Z :=
  let q := num / den in
  let r := num mod den in
  if 2 * r <? den then q
  else if den <? 2 * r then q + 1
  else if Z.even q then q else q + 1.

(** [round(d * 1000)] for a finite [d], computed on the exact product. *)
Definition round_ms (d : spec_float) : option Z :=
  match d with
  | S754_zero _ => Some 0
  | S754_finite s m e =>
      Some (cond_Zopp s
              (if 0 <=? e then 1000 * Zpos m * 2 ^ e
               else round_div (1000 * Zpos m) (2 ^ (- e))))
  | _ => None
  end.

(** The magnitude and the sign of a finite float, for stating what
    truncation does: the float is [(-1)^s * m * 2^e]. *)
Definition is_trunc_of (n : Z) (s : bool) (m : positive) (e : Z) : Prop :=
  (if s then n <= 0 else 0 <= n)
  /\ if 0 <=? e then Z.abs n = Zpos m * 2 ^ e
     else Z.abs n * 2 ^ (- e) <= Zpos m < (Z.abs n + 1) * 2 ^ (- e).

(** The result and container documents in the log of writes, oldest first. *)
Definition written_results (w : World) : list Result :=
  omap (fun pd => match pd.2 with ResultDoc r => Some r | _ => None end) (writes w).
Definition written_containers (w : World) : list Container :=
  omap (fun pd => match pd.2 with ContainerDoc c => Some c | _ => None end) (writes w).

(** ** Inputs of the worked examples *)

Module Demo.

(** Tokens [u0], [u1], ...; the clock reads 1000, 1001, ...; nothing on
    the input side. *)
Definition world : World :=
  mkWorld (fun n => nth n ["u0"; "u1"; "u2"; "u3"; "u4"; "u5"] "u") 0
          (fun n => 1000 + Z.of_nat n) 0
          (fun _ => IsDir []) (fun _ => None) (fun p => p) [] [] [] [].

Definition cfg : Config := mkConfig "out" " / " "Tests" "junit-xml".

Definition args (input : string) : Args :=
  mkArgs input "out" " / " "Tests" "junit-xml" false.

(** [<testcase classname=.. name=.. time=../>] *)
Definition testcase (classname name time : string) : Element :=
  Elem "testcase" [("classname", classname); ("name", name); ("time", time)]
       None [].

(** [<testcase name="t"/>]: no marker, no time. *)
Definition bare_case : Element := Elem "testcase" [("name", "t")] None [].

(** A case carrying [<properties><property name=.. value=../></properties>]. *)
Definition case_with_property (name key value : string) : Element :=
  Elem "testcase" [("classname", "pay.CardTest"); ("name", name)] None
       [Elem "properties" [] None
             [Elem "property" [("name", key); ("value", value)] None []]].

Definition suite (name : string) (tcs : list Element) : Element :=
  Elem "testsuite" [("name", name)] None tcs.

End Demo.

(** A string without whitespace at either end. *)
Definition trimmed (s : string) : Prop :=
  forall c, head (list_ascii_of_string s) = Some c
            \/ last (list_ascii_of_string s) = Some c ->
            PyStr.isspace c = false.

(** The [statusDetails] of a case with a marker. *)
Definition details (msg text : option string) : list (string * string) :=
  [("message", strip_or_empty msg); ("trace", strip_or_empty text)].

(** The entries of a property mapping whose key starts with a prefix, in
    the order of the mapping. *)
Definition with_prefix (p : string) (props : list (string * string))
  : list (string * string) :=
  filter (fun kv => PyStr.startswith kv.1 p = true) props.

(** The suffix of a key after a prefix. *)
Definition suffix_after (p k : string) : string :=
  PyStr.drop (String.length p) k.

(** ** Vocabulary of the further properties *)

(** The [property] elements [collect_properties] reads: those of the first
    [properties] child. *)
Definition property_elements (tc : Element) : list Element :=
  match el_find tc "properties" with
  | Some props_elem => el_findall props_elem "property"
  | None => []
  end.

(** The [property] element that decides the value of key [k]: the last
    one of [property_elements] whose [name] is [k]. *)
Definition property_named (tc : Element) (k : string) : option Element :=
  last (filter (fun p => el_get p "name" = Some k) (property_elements tc)).

(** The value [collect_properties] stores for a [property] element. *)
Definition property_value (p : Element) : string :=
  PyStr.or_str (el_get p "value") "".

(** A lowercase hexadecimal digit. *)
Definition is_hex_digit (c : ascii) : bool :=
  let n := N_of_ascii c in
  ((48 <=? n) && (n <=? 57) || (97 <=? n) && (n <=? 102))%N.

(** The number of documents a suite writes: its results and its container. *)
Definition suite_docs (ts : Element) : nat :=
  S (length (el_findall ts "testcase")).

(** The loop of [main] over the files found. *)
Definition convert_files (cfg : Config) (files : list string) : M unit :=
  for_each (fun p (_ : unit) => convert_file p cfg) files tt.

(** The configuration [main] passes to [convert_file]. *)
Definition config_of (args : Args) : Config :=
  mkConfig (arg_output args) (arg_suite_split args) (arg_default_parent args)
           (arg_framework_name args).

(** The document [write_executor] writes. *)
Definition executor_doc : Doc :=
  ExecutorDoc (mkExecutor "XML Converter" "other" "" "" "").

(** Induction on elements: a property holds of every element if it holds
    of an element whenever it holds of all its children. *)
Fixpoint Element_children_ind (P : Element -> Prop)
    (step : forall tag attrib text children,
        Forall P children -> P (Elem tag attrib text children))
    (e : Element) : P e :=
  match e with
  | Elem tag attrib text children =>
      step tag attrib text children
           ((fix go (l : list Element) : Forall P l :=
               match l with
               | [] => List.Forall_nil P
               | c :: l' =>
                   @List.Forall_cons _ P c l' (Element_children_ind P step c) (go l')
               end) children)
  end.

(** The executor documents in the log of writes. *)
Definition written_executors (w : World) : list Executor :=
  omap (fun pd => match pd.2 with ExecutorDoc x => Some x | _ => None end) (writes w).

(** A write of the conversion of a suite: a result or a container, in the
    file named after its identifier. *)
Definition is_suite_write (cfg : Config) (pd : string * Doc) : Prop :=
  (exists r, pd = (result_path cfg (r_uuid r), ResultDoc r))
  \/ (exists c, pd = (container_path cfg (c_uuid c), ContainerDoc c)).

(** The outcomes of a conversion: it returns, or it raises [ParseError] or
    [ValueError]. *)
Definition conversion_outcome (r : Exc unit) : Prop :=
  r = Ok tt \/ r = Raise ParseError \/ exists msg, r = Raise (ValueError msg).

(** The world [main] hands to the conversions: the output directory has
    been created. *)
Definition after_mkdir (args : Args) (w : World) : World :=
  (mkdir (arg_output args) w).2.

(** ** Vocabulary of the hierarchy labels *)

(** [sep] occurs in [s]. *)
Definition occurs_in (sep s : string) : Prop :=
  exists a b, s = a +:+ sep +:+ b.

(** What splitting a text on a separator means: the text is cut at the
    first separator, the part before it is kept and the text after it is
    split in turn; a text without separator is its only part. In a part
    followed by the separator, the separator occurs only at the very end. *)
Inductive split_of (sep : string) : string -> list string -> Prop :=
| split_last s : ~ occurs_in sep s -> split_of sep s [s]
| split_cut r rest parts :
    (forall a b, r +:+ sep = a +:+ sep +:+ b -> b = "") ->
    split_of sep rest parts ->
    split_of sep (r +:+ sep +:+ rest) (r :: parts).

(** A string of whitespace only. *)
Definition whitespace (s : string) : Prop :=
  Forall (fun c => PyStr.isspace c = true) (list_ascii_of_string s).

(** [p] is [s] trimmed: [s] without the whitespace at its two ends. *)
Definition trim_of (s p : string) : Prop :=
  trimmed p /\ exists l r, s = l +:+ p +:+ r /\ whitespace l /\ whitespace r.

(** ** Vocabulary of the input files *)

(** A run of slashes. *)
Definition slashes (s : string) : Prop :=
  Forall (fun c => c = "/"%char) (list_ascii_of_string s).

(** A file name with the suffix [.xml] in any letter case: a non-empty
    stem, a dot and an extension that lower-cases to [xml]. *)
Definition xml_name (name : string) : Prop :=
  exists stem ext,
    name = stem +:+ "." +:+ ext /\ stem <> "" /\ PyStr.lower ext = "xml".

(* ================================================================== *)
(** * Properties: strings and paths *)
(* ================================================================== *)

Section Strings.

Lemma chars_inj s t :
  list_ascii_of_string s = list_ascii_of_string t -> s = t.
Proof.
  intros H. rewrite <- (string_of_list_ascii_of_string s),
    <- (string_of_list_ascii_of_string t). by rewrite H.
Qed.

Lemma chars_app s t :
  list_ascii_of_string (s +:+ t) = list_ascii_of_string s ++ list_ascii_of_string t.
Proof. induction s as [|c s IH]; simpl; [done | by rewrite IH]. Qed.

Lemma string_app_inv_tail s t u : s +:+ u = t +:+ u -> s = t.
Proof.
  intros H. apply chars_inj. apply (f_equal list_ascii_of_string) in H.
  rewrite !chars_app in H. by apply app_inv_tail in H.
Qed.

Lemma result_path_inj cfg u u' :
  result_path cfg u = result_path cfg u' -> u = u'.
Proof.
  unfold result_path, path_join. intros H.
  apply String.app_inj in H. by apply string_app_inv_tail in H.
Qed.

Lemma result_path_not_container cfg u u' :
  result_path cfg u <> container_path cfg u'.
Proof.
  unfold result_path, container_path, path_join. intros H.
  apply String.app_inj in H.
  apply (f_equal list_ascii_of_string) in H. rewrite !chars_app in H.
  apply (f_equal (@rev ascii)) in H. rewrite !rev_app_distr in H.
  simpl in H. discriminate H.
Qed.

Lemma prefix_cons_inv a p k :
  String.prefix (String a p) k = true ->
  exists k', k = String a k' /\ String.prefix p k' = true.
Proof.
  destruct k as [|b k]; cbn; [done|].
  destruct (ascii_dec a b) as [<- | ?]; [eauto | done].
Qed.

Lemma truthy_true_iff s : PyStr.truthy s = true <-> s <> "".
Proof. destruct s; simpl; split; congruence. Qed.

End Strings.

(* ================================================================== *)
(** * Properties: timing *)
(* ================================================================== *)

Section Timing.

Lemma py_float_raises s e :
  PyFloat.py_float s = Raise e -> exists msg, e = ValueError msg.
Proof.
  unfold PyFloat.py_float.
  destruct (PyFloat.sign (PyStr.strip s)) as [neg r].
  destruct (_ || _); [discriminate|].
  destruct (String.eqb _ _); [discriminate|].
  destruct (PyFloat.number r) as [[[m nfrac] r']|]; [|intros [= <-]; eauto].
  destruct (PyFloat.exponent r'); [discriminate|intros [= <-]; eauto].
Qed.

Lemma py_int_raises x e :
  PyFloat.py_int x = Raise e ->
  exists msg, e = ValueError msg \/ e = OverflowError msg.
Proof. destruct x; simpl; intros [= <-]; eauto. Qed.

(** [to_ms] never raises. *)
Lemma to_ms_total seconds_str : exists r, to_ms seconds_str = Ok r.
Proof.
  unfold to_ms, to_ms_body. destruct seconds_str as [s|]; simpl; [|eauto].
  destruct (PyFloat.py_float s) as [f|e] eqn:Hf; simpl.
  - destruct (PyFloat.py_int _) as [n|e] eqn:Hn; simpl; [eauto|].
    apply py_int_raises in Hn as [msg [-> | ->]]; eauto.
  - apply py_float_raises in Hf as [msg ->]; eauto.
Qed.

Lemma testcase_timing_eq tc cursor :
  testcase_timing tc cursor = Ok (cursor, cursor + span_ms tc).
Proof.
  unfold testcase_timing, span_ms.
  destruct (to_ms_total (el_get tc "time")) as [[d|] ->]; simpl; [done|].
  f_equal. f_equal. lia.
Qed.

End Timing.

(* ================================================================== *)
(** * Properties: one run of the loops *)
(* ================================================================== *)

Section Runs.
Context (cfg : Config) (suite_start : Z).
Context (suite_labels sp_labels : list Label) (sp_links : list Link).

Lemma convert_testcase_run tc cur c w :
  let r := case_result cfg suite_labels sp_labels sp_links tc
                       (uuid_src w (uuid_calls w)) (or_int cur suite_start) in
  convert_testcase cfg suite_start suite_labels sp_labels sp_links tc (cur, c) w
  = (Ok (r_stop r, add_child c r),
     with_run w (S (uuid_calls w)) (clock_calls w)
              (writes w ++ result_writes cfg [r])).
Proof.
  unfold convert_testcase, case_result, case_full_name, fixed_labels,
    case_name, case_classname, bind, lift.
  destruct (split_classname _) as [pkg cls].
  destruct (map_status tc) as [status details].
  rewrite testcase_timing_eq.
  destruct (map_properties_to_labels_links_params _) as [[pl pk] pp].
  cbn. unfold add_child, result_path. cbn.
  by rewrite <- !app_assoc.
Qed.

Lemma suite_results_length us tcs : forall n cur,
  length (suite_results cfg suite_start suite_labels sp_labels sp_links
                        us n cur tcs) = length tcs.
Proof. induction tcs; intros; simpl; auto. Qed.

Lemma for_each_cases_run tcs : forall cur c w,
  let rs := suite_results cfg suite_start suite_labels sp_labels sp_links
                          (uuid_src w) (uuid_calls w) cur tcs in
  for_each (convert_testcase cfg suite_start suite_labels sp_labels sp_links)
           tcs (cur, c) w
  = (Ok (foldl (fun _ r => r_stop r) cur rs, foldl add_child c rs),
     with_run w (uuid_calls w + length tcs) (clock_calls w)
              (writes w ++ result_writes cfg rs)).
Proof.
  induction tcs as [|tc tcs IH]; intros cur c w.
  - cbn. unfold ret, with_run. rewrite Nat.add_0_r, app_nil_r. by destruct w.
  - cbn [for_each]. unfold bind at 1. rewrite convert_testcase_run.
    cbv zeta. rewrite IH. cbn [suite_results foldl map length].
    unfold with_run, result_writes; cbn. rewrite <- app_assoc. cbn.
    repeat f_equal. lia.
Qed.

Lemma suite_results_uuids us tcs : forall n cur,
  map r_uuid (suite_results cfg suite_start suite_labels sp_labels sp_links
                            us n cur tcs)
  = map us (seq n (length tcs)).
Proof. induction tcs as [|tc tcs IH]; intros; cbn; [done | by rewrite IH]. Qed.

(** Result [i] is the result of case [i], with token [n + i]. *)
Lemma suite_results_lookup us tcs : forall n cur i r,
  suite_results cfg suite_start suite_labels sp_labels sp_links
                us n cur tcs !! i = Some r ->
  exists tc start,
    tcs !! i = Some tc
    /\ r = case_result cfg suite_labels sp_labels sp_links tc (us (n + i)%nat) start.
Proof.
  induction tcs as [|tc tcs IH]; intros n cur i r Hr; [done|].
  destruct i as [|i]; cbn in Hr.
  - injection Hr as <-. rewrite Nat.add_0_r. eauto.
  - apply IH in Hr as (tc' & start & ? & ->).
    exists tc', start. by rewrite Nat.add_succ_r.
Qed.

Lemma suite_results_lookup_case us tcs : forall n cur i tc,
  tcs !! i = Some tc ->
  exists start,
    suite_results cfg suite_start suite_labels sp_labels sp_links
                  us n cur tcs !! i
    = Some (case_result cfg suite_labels sp_labels sp_links tc (us (n + i)%nat) start).
Proof.
  induction tcs as [|tc0 tcs IH]; intros n cur i tc Hi; [done|].
  destruct i as [|i]; cbn in Hi.
  - injection Hi as <-. rewrite Nat.add_0_r. cbn. eauto.
  - cbn. rewrite Nat.add_succ_r. by apply IH.
Qed.



End Runs.

Section SuiteRun.
Context (xml_path : string) (cfg : Config) (ts : Element) (w : World).

Lemma convert_suite_run suite_labels :
  derive_suite_labels (suite_name xml_path ts) (suite_sep cfg) (default_parent cfg)
    = Ok suite_labels ->
  convert_suite xml_path cfg ts w
  = (Ok tt,
     with_run w (S (uuid_calls w) + length (el_findall ts "testcase"))
       (S (clock_calls w))
       (writes w
        ++ result_writes cfg (results_of_suite cfg ts w suite_labels)
        ++ [(container_path cfg (uuid_src w (uuid_calls w)),
             ContainerDoc (container_of_suite xml_path cfg ts w suite_labels))])).
Proof.
  intros Hl. unfold convert_suite, bind, uuid4, ms_now, lift. cbn.
  fold (suite_name xml_path ts). rewrite Hl.
  unfold container_of_suite, results_of_suite, suite_prop_labels, suite_prop_links.
  destruct (map_properties_to_labels_links_params (suite_properties ts))
    as [[spl spk] spp].
  match goal with |- context [for_each ?f ?l ?s ?w'] =>
    pose proof (for_each_cases_run cfg (clock_src w (clock_calls w))
                  suite_labels spl spk (el_findall ts "testcase")
                  (clock_src w (clock_calls w))
                  (empty_container (uuid_src w (uuid_calls w))
                                   (suite_name xml_path ts)
                                   (clock_src w (clock_calls w))) w') as Hrun
  end.
  cbn in Hrun. unfold empty_container in Hrun. rewrite Hrun.
  unfold write_json, with_run, container_path, empty_container. cbn.
  by rewrite <- app_assoc.
Qed.

Lemma convert_suite_raise e :
  derive_suite_labels (suite_name xml_path ts) (suite_sep cfg) (default_parent cfg)
    = Raise e ->
  convert_suite xml_path cfg ts w
  = (Raise e, with_run w (S (uuid_calls w)) (S (clock_calls w)) (writes w)).
Proof.
  intros Hl. unfold convert_suite, bind, uuid4, ms_now, lift. cbn.
  fold (suite_name xml_path ts). by rewrite Hl.
Qed.

Lemma derive_suite_labels_ok ts_name sep default_parent :
  sep <> "" -> exists ls, derive_suite_labels ts_name sep default_parent = Ok ls.
Proof.
  intros Hsep. unfold derive_suite_labels, py_split.
  destruct sep; [done|]. cbn. destruct (PyStr.truthy ts_name); cbn; eauto.
Qed.

End SuiteRun.

(* ================================================================== *)
(** * Properties: the files on disk and the container *)
(* ================================================================== *)

Section Disk.

Lemma foldl_insert_lookup_notin (l : list (string * Doc)) :
  forall (m : gmap string Doc) p,
  p ∉ l.*1 -> foldl (fun m pd => <[pd.1 := pd.2]> m) m l !! p = m !! p.
Proof.
  induction l as [|[q e] l IH]; intros m p Hp; [done|].
  cbn in Hp. apply not_elem_of_cons in Hp as [Hq Hp].
  cbn [foldl]. rewrite IH by done. cbn. by rewrite lookup_insert_ne.
Qed.

(** The last write to a path is what the disk holds there. *)
Lemma foldl_insert_lookup_last (m : gmap string Doc) l1 l2 p d :
  p ∉ l2.*1 ->
  foldl (fun m pd => <[pd.1 := pd.2]> m) m (l1 ++ (p, d) :: l2) !! p = Some d.
Proof.
  intros Hp. rewrite foldl_app. cbn [foldl].
  rewrite foldl_insert_lookup_notin by done. cbn. by rewrite lookup_insert_eq.
Qed.

End Disk.

Section ContainerFacts.

Lemma add_children_children rs : forall c,
  c_children (foldl add_child c rs) = c_children c ++ map r_uuid rs.
Proof.
  induction rs as [|r rs IH]; intros c; cbn; [by rewrite app_nil_r|].
  rewrite IH. cbn. by rewrite <- app_assoc.
Qed.

Lemma add_children_start rs : forall c,
  c_start (foldl add_child c rs) = c_start c.
Proof. induction rs as [|r rs IH]; intros c; cbn; [done | by rewrite IH]. Qed.

Lemma add_children_uuid rs : forall c,
  c_uuid (foldl add_child c rs) = c_uuid c.
Proof. induction rs as [|r rs IH]; intros c; cbn; [done | by rewrite IH]. Qed.

(** [stop] never decreases as children are added. *)
Lemma add_children_stop_lower rs : forall c,
  c_stop c <= c_stop (foldl add_child c rs).
Proof.
  induction rs as [|r rs IH]; intros c; cbn; [lia|].
  etrans; [|apply IH]. cbn. lia.
Qed.

Lemma add_children_stop_upper rs : forall c r,
  r ∈ rs -> r_stop r <= c_stop (foldl add_child c rs).
Proof.
  induction rs as [|r0 rs IH]; intros c r Hr; [by apply elem_of_nil in Hr|].
  apply elem_of_cons in Hr as [-> | Hr]; cbn.
  - etrans; [|apply add_children_stop_lower]. cbn. lia.
  - by apply IH.
Qed.

Lemma add_children_stop_attained rs : forall c,
  c_stop (foldl add_child c rs) = c_stop c
  \/ exists r, r ∈ rs /\ c_stop (foldl add_child c rs) = r_stop r.
Proof.
  induction rs as [|r0 rs IH]; intros c; cbn; [by left|].
  destruct (IH (add_child c r0)) as [-> | (r & Hr & ->)].
  - cbn. destruct (Z.max_spec (c_stop c) (r_stop r0)) as [[_ ->] | [_ ->]].
    + right. exists r0. split; [apply elem_of_cons; by left | done].
    + by left.
  - right. exists r. split; [apply elem_of_cons; by right | done].
Qed.

Lemma filter_unique {A} (f : A -> string) (l : list A) x :
  NoDup (map f l) -> x ∈ l ->
  length (filter (fun y => f y = f x) l) = 1%nat.
Proof.
  induction l as [|a l IH]; intros Hnd Hx; [by apply elem_of_nil in Hx|].
  cbn in Hnd. apply NoDup_cons in Hnd as [Ha Hnd].
  rewrite filter_cons. case_decide as Heq.
  - cbn. f_equal. apply length_zero_iff_nil.
    destruct (filter _ l) as [|y ys] eqn:Hf; [done|].
    assert (y ∈ filter (fun y => f y = f x) l) as Hy
      by (rewrite Hf; apply elem_of_cons; by left).
    apply list_elem_of_filter in Hy as [Hy1 Hy2].
    exfalso. apply Ha. rewrite Heq, <- Hy1.
    apply list_elem_of_fmap. eauto.
  - apply IH; [done|].
    apply elem_of_cons in Hx as [Hxa | Hx]; [by subst | done].
Qed.

End ContainerFacts.
(* ================================================================== *)
(** * Lemmas on mappings and the property loop *)
(* ================================================================== *)

Section Mappings.

(** Reading a mapping after an assignment. *)
Lemma dict_get_set {V} (d : list (string * V)) k v k' :
  dict_get (dict_set d k v) k'
  = if String.eqb k' k then Some v else dict_get d k'.
Proof.
  induction d as [|[k0 v0] d IH]; cbn; [done|].
  destruct (String.eqb_spec k k0) as [<- | Hk]; cbn.
  - by destruct (String.eqb_spec k' k).
  - rewrite IH. destruct (String.eqb_spec k' k0) as [-> | ?]; [|done].
    destruct (String.eqb_spec k0 k); [congruence | done].
Qed.

Lemma dict_set_keys {V} (d : list (string * V)) k v k' :
  k' ∈ (dict_set d k v).*1 <-> k' = k \/ k' ∈ d.*1.
Proof.
  induction d as [|[k0 v0] d IH]; cbn.
  - rewrite list_elem_of_singleton, elem_of_nil. tauto.
  - destruct (String.eqb_spec k k0) as [<- | Hk]; cbn.
    + rewrite !elem_of_cons. tauto.
    + rewrite !elem_of_cons, IH. tauto.
Qed.

(** An assignment keeps the keys distinct. *)
Lemma dict_set_nodup {V} (d : list (string * V)) k v :
  NoDup d.*1 -> NoDup (dict_set d k v).*1.
Proof.
  induction d as [|[k0 v0] d IH]; cbn; intros Hnd.
  - apply NoDup_singleton.
  - apply NoDup_cons in Hnd as [Hk0 Hnd].
    destruct (String.eqb_spec k k0) as [<- | Hk]; cbn.
    + by apply NoDup_cons.
    + apply NoDup_cons. split; [|by apply IH].
      rewrite dict_set_keys. intros [? | ?]; congruence.
Qed.

Lemma add_property_nodup d p : NoDup d.*1 -> NoDup (add_property d p).*1.
Proof.
  unfold add_property. destruct (el_get p "name") as [n|]; [|done].
  destruct (PyStr.truthy n); [apply dict_set_nodup | done].
Qed.

Lemma fold_add_property_nodup ps : forall d,
  NoDup d.*1 -> NoDup (fold_left add_property ps d).*1.
Proof.
  induction ps as [|p ps IH]; intros d Hd; [done|].
  cbn. by apply IH, add_property_nodup.
Qed.

(** A key of the mapping holds the value of the last [property] element
    that bears it as its name. *)
Lemma fold_add_property_lookup ps k :
  k <> "" ->
  dict_get (fold_left add_property ps []) k
  = property_value <$> last (filter (fun p => el_get p "name" = Some k) ps).
Proof.
  intros Hk. induction ps as [|p ps IH] using rev_ind; [done|].
  rewrite fold_left_app, filter_app, filter_cons, filter_nil. cbn [fold_left].
  unfold add_property at 1. fold (property_value p).
  destruct (el_get p "name") as [n|] eqn:Hn.
  - destruct (PyStr.truthy n) eqn:Ht.
    + rewrite dict_get_set. destruct (String.eqb_spec k n) as [-> | Hne].
      * rewrite decide_True by done. by rewrite last_snoc.
      * rewrite decide_False by congruence. by rewrite app_nil_r.
    + rewrite decide_False; [by rewrite app_nil_r|].
      intros [= ->]. by destruct k.
  - rewrite decide_False by done. by rewrite app_nil_r.
Qed.

Lemma fold_add_property_no_empty_key ps :
  dict_get (fold_left add_property ps []) "" = None.
Proof.
  induction ps as [|p ps IH] using rev_ind; [done|].
  rewrite fold_left_app. cbn [fold_left]. unfold add_property at 1.
  destruct (el_get p "name") as [n|]; [|done].
  destruct (PyStr.truthy n) eqn:Ht; [|done].
  rewrite dict_get_set. by destruct n.
Qed.

Lemma collect_properties_fold tc :
  collect_properties tc = fold_left add_property (property_elements tc) [].
Proof. unfold collect_properties, property_elements. by destruct (el_find _ _). Qed.

Lemma suite_properties_fold ts :
  suite_properties ts = fold_left add_property (property_elements ts) [].
Proof. unfold suite_properties, property_elements. by destruct (el_find _ _). Qed.

(** With distinct keys, the entries of a mapping are what lookup finds. *)
Lemma dict_get_elem_of {V} (d : list (string * V)) k v :
  NoDup d.*1 -> dict_get d k = Some v <-> (k, v) ∈ d.
Proof.
  induction d as [|[k0 v0] d IH]; cbn; intros Hnd.
  - rewrite elem_of_nil. split; [done | tauto].
  - apply NoDup_cons in Hnd as [Hk0 Hnd]. rewrite elem_of_cons.
    destruct (String.eqb_spec k k0) as [-> | Hk].
    + split; [intros [= ->]; by left|].
      intros [[= ->] | Hin]; [done|].
      exfalso. apply Hk0. apply list_elem_of_fmap. by exists (k0, v).
    + rewrite (IH Hnd). split; [tauto|]. intros [[= ? ?] | ?]; [congruence | done].
Qed.

End Mappings.

Section Prefixes.

Lemma startswith_app p x : PyStr.startswith (p +:+ x) p = true.
Proof.
  unfold PyStr.startswith. induction p as [|a p IH]; [by destruct x|].
  change (String a p +:+ x) with (String a (p +:+ x)). cbn.
  by destruct (ascii_dec a a).
Qed.

Lemma suffix_after_app p x : suffix_after p (p +:+ x) = x.
Proof.
  unfold suffix_after. induction p as [|a p IH]; [done|].
  by change (String a p +:+ x) with (String a (p +:+ x)).
Qed.

End Prefixes.


(* ================================================================== *)
(** * The container of a suite (C1) *)
(* ================================================================== *)

(** C1 (as amended). A suite with [k] test cases, converted with a non-empty
    separator and fresh tokens, writes [k] result documents and then one
    container whose [children] are their identifiers in input order. Every
    child identifier is the [uuid] of exactly one of the results written,
    and its file holds that result. The container's [stop] is the greatest
    of its [start] and its children's [stop]s: it is never below [start],
    it equals [start] when there is no case, and it is the greatest
    children's [stop] as soon as one child stops at or after [start]. *)
Theorem container_children_and_span xml_path cfg ts w :
  suite_sep cfg <> "" ->
  NoDup (map (uuid_src w)
             (seq (S (uuid_calls w)) (length (el_findall ts "testcase")))) ->
  exists rs c w',
    convert_suite xml_path cfg ts w = (Ok tt, w')
    /\ writes w' = writes w ++ result_writes cfg rs
                     ++ [(container_path cfg (c_uuid c), ContainerDoc c)]
    /\ length (c_children c) = length (el_findall ts "testcase")
    /\ c_children c = map r_uuid rs
    /\ (forall i tc, el_findall ts "testcase" !! i = Some tc ->
          exists r, rs !! i = Some r /\ r_name r = case_name tc)
    /\ (forall u, u ∈ c_children c ->
          length (filter (fun r => r_uuid r = u) rs) = 1%nat)
    /\ (forall r, r ∈ rs ->
          disk w' !! result_path cfg (r_uuid r) = Some (ResultDoc r))
    /\ c_start c <= c_stop c
    /\ (forall r, r ∈ rs -> r_stop r <= c_stop c)
    /\ (c_stop c = c_start c \/ exists r, r ∈ rs /\ c_stop c = r_stop r)
    /\ (el_findall ts "testcase" = [] -> c_stop c = c_start c)
    /\ ((exists r, r ∈ rs /\ c_start c <= r_stop r) ->
          exists r, r ∈ rs /\ c_stop c = r_stop r).
Proof.
  intros Hsep Hfresh.
  destruct (derive_suite_labels_ok (suite_name xml_path ts) (suite_sep cfg)
              (default_parent cfg) Hsep) as [sl Hsl].
  pose (rs := results_of_suite cfg ts w sl).
  pose (c := container_of_suite xml_path cfg ts w sl).
  assert (Huu : map r_uuid rs
                = map (uuid_src w)
                      (seq (S (uuid_calls w)) (length (el_findall ts "testcase")))).
  { unfold rs, results_of_suite. by rewrite suite_results_uuids. }
  assert (Hch : c_children c = map r_uuid rs).
  { unfold c, container_of_suite. by rewrite add_children_children. }
  assert (Hst : c_start c = clock_src w (clock_calls w)).
  { unfold c, container_of_suite. by rewrite add_children_start. }
  assert (Hlen : length rs = length (el_findall ts "testcase")).
  { unfold rs, results_of_suite. by rewrite suite_results_length. }
  eexists rs, c, _. split; [by apply convert_suite_run|].
  split. { cbn. unfold c at 1, container_of_suite. by rewrite add_children_uuid. }
  split. { by rewrite Hch, length_map. }
  split; [done|].
  split.
  { intros i tc Hi. unfold rs, results_of_suite.
    destruct (suite_results_lookup_case cfg (clock_src w (clock_calls w)) sl
                (suite_prop_labels ts) (suite_prop_links ts)
                (uuid_src w) (el_findall ts "testcase") (S (uuid_calls w))
                (clock_src w (clock_calls w)) i tc Hi) as [start Hr].
    eexists. split; [exact Hr | done]. }
  split.
  { intros u Hu. rewrite Hch in Hu. apply list_elem_of_fmap in Hu as (r & -> & Hr).
    apply filter_unique; [by rewrite Huu | done]. }
  split.
  { intros r Hr. unfold disk, result_writes. cbn.
    apply list_elem_of_split in Hr as (l1 & l2 & Hrs).
    fold rs. rewrite Hrs, map_app. cbn [map].
    rewrite <- !app_assoc. rewrite app_assoc. cbn [app].
    apply foldl_insert_lookup_last.
    rewrite fmap_app. cbn.
    assert (Hnd : NoDup (map r_uuid (l1 ++ r :: l2))) by (by rewrite <- Hrs, Huu).
    rewrite map_app in Hnd. apply NoDup_app in Hnd as (_ & _ & Hnd).
    cbn in Hnd. apply NoDup_cons in Hnd as [Hr2 _].
    intros Hin. apply elem_of_app in Hin as [Hin | Hin].
    - apply list_elem_of_fmap in Hin as ([p d] & Hp & Hin). cbn in Hp.
      apply list_elem_of_fmap in Hin as (r' & [= -> ->] & Hin).
      apply result_path_inj in Hp. apply Hr2. rewrite Hp.
      apply list_elem_of_fmap. eauto.
    - apply list_elem_of_singleton in Hin.
      by apply result_path_not_container in Hin. }
  split. { rewrite Hst. unfold c, container_of_suite.
           etrans; [|apply add_children_stop_lower]. done. }
  split. { intros r Hr. by apply add_children_stop_upper. }
  assert (Hatt : c_stop c = c_start c \/ exists r, r ∈ rs /\ c_stop c = r_stop r).
  { rewrite Hst. unfold c, container_of_suite.
    apply (add_children_stop_attained rs). }
  split; [done|].
  split.
  { intros Hk. destruct Hatt as [-> | (r & Hr & _)]; [done|].
    rewrite Hk in Hlen. destruct rs; [by apply elem_of_nil in Hr | done]. }
  intros (r & Hr & Hle). destruct Hatt as [Heq | ?]; [|done].
  exists r. split; [done|].
  pose proof (add_children_stop_upper rs
    (empty_container (uuid_src w (uuid_calls w)) (suite_name xml_path ts)
                     (clock_src w (clock_calls w))) r Hr) as Hup.
  fold rs in Hup. change (foldl add_child _ rs) with c in Hup. lia.
Qed.

(** The theorem applies to a suite of two cases, the first taking 1.5 s. *)
Lemma container_children_and_span_witness :
  exists rs c w',
    convert_suite "in.xml" Demo.cfg
      (Demo.suite "Web / Checkout"
         [Demo.testcase "a.B" "t1" "1.5"; Demo.bare_case]) Demo.world
    = (Ok tt, w')
    /\ length (c_children c) = 2%nat
    /\ c_children c = map r_uuid rs
    /\ c_start c <= c_stop c.
Proof.
  destruct (container_children_and_span "in.xml" Demo.cfg
              (Demo.suite "Web / Checkout"
                 [Demo.testcase "a.B" "t1" "1.5"; Demo.bare_case]) Demo.world)
    as (rs & c & w' & Hrun & _ & Hlen & Hch & _ & _ & _ & Hle & _).
  - discriminate.
  - compute_done.
  - exists rs, c, w'. repeat split; assumption.
Defined.

(** C1 as stated fails: with one case of duration -1 s the container stops
    at 1000 while its only child stops at 0, so [stop] is not the greatest
    of the children's [stop]s. *)
Lemma container_stop_not_children_max :
  let w' := (convert_suite "in.xml" Demo.cfg
               (Demo.suite "S" [Demo.testcase "a.B" "t" "-1"]) Demo.world).2 in
  map (fun c => (c_children c, c_start c, c_stop c)) (written_containers w')
    = [(["u1"], 1000, 1000)]
  /\ map (fun r => (r_uuid r, r_start r, r_stop r)) (written_results w')
    = [("u1", 1000, 0)]
  /\ ~ (forall c r, c ∈ written_containers w' -> r ∈ written_results w' ->
         r_uuid r ∈ c_children c -> c_stop c = r_stop r).
Proof.
  vm_compute. split; [done|]. split; [done|].
  intros H. specialize (H _ _ (list_elem_of_here _ _) (list_elem_of_here _ _)
                          (list_elem_of_here _ _)).
  discriminate H.
Qed.

(* ================================================================== *)
(** * Timing of one case (C2, C4) *)
(* ================================================================== *)

Section Truncation.

(** [int] of a finite float keeps its sign and drops its fraction. *)
Lemma py_int_trunc s m e n :
  PyFloat.py_int (S754_finite s m e) = Ok n -> is_trunc_of n s m e.
Proof.
  cbn. intros [= <-]. unfold is_trunc_of.
  assert (Hnn : 0 <= Z.shiftl (Z.pos m) e) by (apply Z.shiftl_nonneg; lia).
  split.
  - destruct s; cbn; lia.
  - assert (Habs : Z.abs (cond_Zopp s (Z.shiftl (Z.pos m) e))
                   = Z.shiftl (Z.pos m) e) by (destruct s; cbn; lia).
    rewrite Habs. destruct (Z.leb_spec 0 e) as [He | He].
    + by rewrite Z.shiftl_mul_pow2.
    + rewrite <- (Z.opp_involutive e) at 1 3.
      rewrite Z.shiftl_opp_r, Z.shiftr_div_pow2 by lia.
      assert (Hpos : 0 < 2 ^ (- e)) by (apply Z.pow_pos_nonneg; lia).
      pose proof (Z.div_mod (Z.pos m) (2 ^ (- e)) ltac:(lia)) as Hdm.
      pose proof (Z.mod_pos_bound (Z.pos m) (2 ^ (- e)) Hpos) as Hb.
      revert Hdm Hb. generalize (Z.pos m `div` 2 ^ (- e)) (Z.pos m `mod` 2 ^ (- e)).
      revert Hpos. generalize (2 ^ (- e)) (Z.pos m).
      intros p a Hp q r -> Hr. split; nia.
Qed.

End Truncation.

(** C4 (as amended). [testcase_timing] never raises and starts the case at
    the cursor. When the [time] attribute is absent or is not a float
    literal, [stop = start + 1]. When it parses to the float [d], the float
    product [d * 1000.0] decides: if it is finite, [stop - start] is that
    product truncated toward zero (not rounded); if it is an infinity or a
    NaN, [stop = start + 1]. *)
Theorem testcase_timing_truncates tc cursor :
  exists stop,
    testcase_timing tc cursor = Ok (cursor, stop)
    /\ (el_get tc "time" = None -> stop = cursor + 1)
    /\ (forall s e, el_get tc "time" = Some s ->
          PyFloat.py_float s = Raise e -> stop = cursor + 1)
    /\ (forall s d, el_get tc "time" = Some s -> PyFloat.py_float s = Ok d ->
          match PyFloat.mul d PyFloat.f1000 with
          | S754_zero _ => stop = cursor
          | S754_finite sg m e => is_trunc_of (stop - cursor) sg m e
          | S754_infinity _ | S754_nan => stop = cursor + 1
          end).
Proof.
  exists (cursor + span_ms tc). split; [apply testcase_timing_eq|].
  unfold span_ms, to_ms, to_ms_body.
  split; [by intros ->|]. split.
  - intros s e -> Hf. rewrite Hf. cbn.
    apply py_float_raises in Hf as [msg ->]. done.
  - intros s d -> Hf. rewrite Hf. cbn [exc_bind].
    destruct (PyFloat.mul d PyFloat.f1000) as [sg|sg| |sg m e] eqn:Hp.
    + cbn. lia.
    + done.
    + done.
    + destruct (PyFloat.py_int (S754_finite sg m e)) as [n|] eqn:Hn; [|done].
      cbn. replace (cursor + n - cursor) with n by lia.
      by apply py_int_trunc.
Qed.

(** The theorem at [time="1.5"] and cursor 1000. *)
Lemma testcase_timing_truncates_witness :
  exists stop,
    testcase_timing (Demo.testcase "a.B" "t" "1.5") 1000 = Ok (1000, stop)
    /\ stop = 2500.
Proof.
  destruct (testcase_timing_truncates (Demo.testcase "a.B" "t" "1.5") 1000)
    as (stop & Hrun & _).
  exists stop. split; [exact Hrun|].
  vm_compute in Hrun. by injection Hrun as <-.
Defined.

(** C4 as stated fails: 0.09375 s is 93.75 ms, which rounds to 94, and
    [testcase_timing] gives 93. *)
Lemma timing_truncates_not_rounds :
  PyFloat.py_float "0.09375" = Ok (S754_finite false 6755399441055744 (-56))
  /\ round_ms (S754_finite false 6755399441055744 (-56)) = Some 94
  /\ testcase_timing (Demo.testcase "a.B" "t" "0.09375") 0 = Ok (0, 93)
  /\ ~ (exists d n, PyFloat.py_float "0.09375" = Ok d /\ round_ms d = Some n
          /\ testcase_timing (Demo.testcase "a.B" "t" "0.09375") 0 = Ok (0, 0 + n)).
Proof.
  split; [by vm_compute|]. split; [by vm_compute|]. split; [by vm_compute|].
  intros (d & n & Hd & Hn & Ht).
  vm_compute in Hd. injection Hd as <-.
  vm_compute in Hn. injection Hn as <-.
  vm_compute in Ht. discriminate Ht.
Qed.

(** The same on a decimal that binary64 cannot hold: 1.001 s gives 1000 ms,
    the float product being 1000.9999999999999. *)
Example timing_of_1_001 :
  testcase_timing (Demo.testcase "a.B" "t" "1.001") 0 = Ok (0, 1000)
  /\ (exists d, PyFloat.py_float "1.001" = Ok d /\ round_ms d = Some 1001).
Proof. split; [by vm_compute|]. eexists. split; by vm_compute. Qed.

(** Infinities, NaN and products that overflow fall back to 1 ms. *)
Example timing_of_inf :
  testcase_timing (Demo.testcase "a.B" "t" "inf") 7 = Ok (7, 8)
  /\ testcase_timing (Demo.testcase "a.B" "t" "nan") 7 = Ok (7, 8)
  /\ testcase_timing (Demo.testcase "a.B" "t" "1e308") 7 = Ok (7, 8)
  /\ testcase_timing (Demo.testcase "a.B" "t" "soon") 7 = Ok (7, 8)
  /\ testcase_timing Demo.bare_case 7 = Ok (7, 8).
Proof. repeat split; by vm_compute. Qed.

(** C2 (as amended). The result written for a case stops 1 ms after it
    starts when [to_ms] finds no duration (the [time] attribute is absent or
    is not a float literal); when [to_ms] finds a duration of [d] ms it stops
    [d] ms after it starts, so [stop > start] exactly when [d > 0]. *)
Theorem result_span cfg suite_start suite_labels sp_labels sp_links tc cur c w :
  exists r st' w',
    convert_testcase cfg suite_start suite_labels sp_labels sp_links tc (cur, c) w
      = (Ok st', w')
    /\ writes w' = writes w ++ [(result_path cfg (r_uuid r), ResultDoc r)]
    /\ (to_ms (el_get tc "time") = Ok None ->
          r_stop r = r_start r + 1 /\ r_start r < r_stop r)
    /\ (forall d, to_ms (el_get tc "time") = Ok (Some d) ->
          r_stop r = r_start r + d /\ (r_start r < r_stop r <-> 0 < d))
    /\ (el_get tc "time" = None -> to_ms (el_get tc "time") = Ok None)
    /\ (forall s e, el_get tc "time" = Some s -> PyFloat.py_float s = Raise e ->
          to_ms (el_get tc "time") = Ok None).
Proof.
  eexists _, _, _. split; [apply convert_testcase_run|].
  split; [done|]. cbn. unfold span_ms.
  split. { intros ->. lia. }
  split. { intros d ->. lia. }
  split. { by intros ->. }
  intros s e -> Hf. unfold to_ms, to_ms_body. rewrite Hf. cbn.
  by apply py_float_raises in Hf as [msg ->].
Qed.

(** The theorem at a case without [time]. *)
Lemma result_span_witness :
  exists r st' w',
    convert_testcase Demo.cfg 1000 [] [] [] Demo.bare_case
      (1000, empty_container "u" "S" 1000) Demo.world = (Ok st', w')
    /\ r_stop r = r_start r + 1.
Proof.
  destruct (result_span Demo.cfg 1000 [] [] [] Demo.bare_case 1000
              (empty_container "u" "S" 1000) Demo.world)
    as (r & st' & w' & Hrun & _ & Hnone & _).
  exists r, st', w'. split; [exact Hrun|]. by apply Hnone.
Defined.

(** C2 as stated fails: a case with [time="0"] gets [stop = start]. *)
Lemma zero_duration_result :
  let w' := (convert_suite "in.xml" Demo.cfg
               (Demo.suite "S" [Demo.testcase "a.B" "t" "0"]) Demo.world).2 in
  map (fun r => (r_start r, r_stop r)) (written_results w') = [(1000, 1000)]
  /\ ~ (forall r, r ∈ written_results w' -> r_stop r > r_start r).
Proof.
  vm_compute. split; [done|].
  intros H. specialize (H _ (list_elem_of_here _ _)). by vm_compute in H.
Qed.

(* ================================================================== *)
(** * The status classifier (C3) *)
(* ================================================================== *)

Section Strip.

Lemma chars_rev_app s1 s2 :
  list_ascii_of_string (String.rev_app s1 s2)
  = rev (list_ascii_of_string s1) ++ list_ascii_of_string s2.
Proof.
  revert s2. induction s1 as [|c s1 IH]; intros s2; cbn; [done|].
  rewrite IH. cbn. by rewrite <- app_assoc.
Qed.

Lemma chars_rev s :
  list_ascii_of_string (String.rev s) = rev (list_ascii_of_string s).
Proof. unfold String.rev. by rewrite chars_rev_app, app_nil_r. Qed.

(** What [lstrip] leaves does not start with whitespace... *)
Lemma lstrip_head s c :
  head (list_ascii_of_string (PyStr.lstrip s)) = Some c ->
  PyStr.isspace c = false.
Proof.
  induction s as [|d s IH]; cbn; [done|].
  destruct (PyStr.isspace d) eqn:Hd; [done|]. cbn. by intros [= <-].
Qed.

(** ... and is the end of the string. *)
Lemma lstrip_suffix s :
  exists p, list_ascii_of_string s = p ++ list_ascii_of_string (PyStr.lstrip s).
Proof.
  induction s as [|d s [p IH]]; cbn; [by exists []|].
  destruct (PyStr.isspace d).
  - exists (d :: p). cbn. by rewrite IH.
  - by exists [].
Qed.

(** What [rstrip] leaves is the beginning of the string. *)
Lemma rstrip_prefix s :
  exists q, list_ascii_of_string s = list_ascii_of_string (PyStr.rstrip s) ++ q.
Proof.
  unfold PyStr.rstrip. rewrite chars_rev.
  destruct (lstrip_suffix (String.rev s)) as [p Hp].
  rewrite chars_rev in Hp. exists (rev p).
  rewrite <- rev_app_distr, <- Hp. by rewrite rev_involutive.
Qed.

Lemma rstrip_last s c :
  last (list_ascii_of_string (PyStr.rstrip s)) = Some c ->
  PyStr.isspace c = false.
Proof.
  unfold PyStr.rstrip. rewrite chars_rev.
  intros Hl. apply (lstrip_head (String.rev s)).
  destruct (list_ascii_of_string (PyStr.lstrip (String.rev s))) as [|a l]; [done|].
  cbn in Hl. rewrite last_snoc in Hl. done.
Qed.

Lemma strip_trimmed s : trimmed (PyStr.strip s).
Proof.
  unfold trimmed, PyStr.strip. intros c [Hh | Hl].
  - destruct (rstrip_prefix (PyStr.lstrip s)) as [q Hq].
    apply (lstrip_head s). rewrite Hq.
    by destruct (list_ascii_of_string (PyStr.rstrip (PyStr.lstrip s))).
  - by apply rstrip_last in Hl.
Qed.

End Strip.

(** C3 (as amended). The classifier looks at the first [failure], [error]
    and [skipped] child in that order of priority: a failure gives "failed",
    else an error gives "broken", else a skip gives "skipped", its message
    being the [message] attribute or, when that is absent or empty, the
    [type] attribute. With a marker the detail holds both [message] and
    [trace], trimmed, an absent value giving the empty string. Without any
    marker the status is "passed" and the detail is the empty dict: it has
    neither a [message] nor a [trace] entry. *)
Theorem map_status_priority tc :
  match el_find tc "failure", el_find tc "error", el_find tc "skipped" with
  | Some f, _, _ =>
      map_status tc = ("failed", details (el_get f "message") (el_text f))
  | None, Some e, _ =>
      map_status tc = ("broken", details (el_get e "message") (el_text e))
  | None, None, Some s =>
      map_status tc
      = ("skipped",
         details (PyStr.or_opt (el_get s "message") (el_get s "type")) (el_text s))
  | None, None, None =>
      map_status tc = ("passed", [])
      /\ dict_get (map_status tc).2 "message" = None
      /\ dict_get (map_status tc).2 "trace" = None
  end
  /\ (forall msg text,
        dict_get (details msg text) "message" = Some (strip_or_empty msg)
        /\ dict_get (details msg text) "trace" = Some (strip_or_empty text))
  /\ (forall x, trimmed (strip_or_empty x))
  /\ strip_or_empty None = ""
  /\ (forall k v, dict_get (map_status tc).2 k = Some v -> trimmed v).
Proof.
  assert (Htr : forall x, trimmed (strip_or_empty x)).
  { intros x. apply strip_trimmed. }
  split; [|split; [done|split; [done|split; [done|]]]].
  - unfold map_status, details.
    destruct (el_find tc "failure"); [done|].
    destruct (el_find tc "error"); [done|].
    by destruct (el_find tc "skipped").
  - intros k v. unfold map_status.
    destruct (el_find tc "failure") as [f|];
      [|destruct (el_find tc "error") as [e|];
        [|destruct (el_find tc "skipped") as [s|]]]; cbn;
      try (destruct (String.eqb k "message");
           [intros [= <-]; apply Htr
           |destruct (String.eqb k "trace"); [intros [= <-]; apply Htr | done]]).
Qed.

(** The theorem at a case with a failure marker. *)
Lemma map_status_priority_witness :
  map_status (Elem "testcase" [] None
                [Elem "failure" [("message", " X ")] (Some "trace") []])
    = ("failed", details (Some " X ") (Some "trace"))
  /\ trimmed "X".
Proof.
  destruct (map_status_priority
              (Elem "testcase" [] None
                 [Elem "failure" [("message", " X ")] (Some "trace") []]))
    as (Hst & _ & _ & _ & Htr).
  split; [exact Hst|]. apply (Htr "message"). by vm_compute.
Defined.

(** The examples of the specification. *)
Example map_status_examples :
  map_status (Elem "testcase" [] None
                [Elem "failure" [("message", "X")] (Some "trace") []])
    = ("failed", [("message", "X"); ("trace", "trace")])
  /\ (map_status (Elem "testcase" [] None
                [Elem "error" [("message", " boom ")] None []])).1 = "broken"
  /\ map_status (Elem "testcase" [] None
                [Elem "skipped" [("type", "ignored")] None []])
    = ("skipped", [("message", "ignored"); ("trace", "")])
  /\ map_status (Elem "testcase" [] None
                [Elem "skipped" [] None []; Elem "error" [] None [];
                 Elem "failure" [] None []])
    = ("failed", [("message", ""); ("trace", "")]).
Proof. repeat split; by vm_compute. Qed.

(** C3 as stated fails: a case without marker gets the detail [{}], in
    which [message] and [trace] are missing, not empty strings. *)
Lemma passed_detail_is_empty_dict :
  map_status Demo.bare_case = ("passed", [])
  /\ dict_get (map_status Demo.bare_case).2 "message" <> Some ""
  /\ dict_get (map_status Demo.bare_case).2 "trace" <> Some "".
Proof. by vm_compute. Qed.

(* ================================================================== *)
(** * Names and the history identifier (C5, C10) *)
(* ================================================================== *)

Section Names.

Lemma case_name_truthy tc : PyStr.truthy (case_name tc) = true.
Proof. unfold case_name. by destruct (el_get tc "name") as [[|? ?]|]. Qed.

Lemma full_name_truthy classname name :
  PyStr.truthy name = true ->
  PyStr.truthy
    (PyStr.join "." (truthy_parts [(split_classname classname).1;
                                   (split_classname classname).2; name])) = true.
Proof.
  destruct (split_classname classname) as [[|a pkg] [|b cls]];
    destruct name as [|n name]; by cbn.
Qed.

Lemma case_full_name_truthy tc : PyStr.truthy (case_full_name tc) = true.
Proof. apply full_name_truthy, case_name_truthy. Qed.

(** The key hashed into [historyId] is the key of the case's names. *)
Lemma case_result_history cfg sl spl spk tc u start :
  r_historyId (case_result cfg sl spl spk tc u start)
  = stable_hash (history_key (case_classname tc) (case_name tc)).
Proof. done. Qed.

End Names.

(** C5. The [historyId] written for a case is the hash of a key computed
    from its class name and its name alone: the joined fully-qualified name
    or, were that empty, [classname + "::" + name]. Two cases with the same
    class name and name (as [convert_file] reads them: an absent attribute
    counts as empty) therefore get the same [historyId],
    whatever the configuration, the suite, the cursor, the tokens drawn, the
    clock and the files already written. *)
Theorem history_id_deterministic
    cfg1 cfg2 start1 start2 sl1 sl2 spl1 spl2 spk1 spk2 tc1 tc2 st1 st2 w1 w2 :
  PyStr.or_str (el_get tc1 "classname") "" = PyStr.or_str (el_get tc2 "classname") "" ->
  PyStr.or_str (el_get tc1 "name") "test" = PyStr.or_str (el_get tc2 "name") "test" ->
  exists r1 r2 st1' st2' w1' w2',
    convert_testcase cfg1 start1 sl1 spl1 spk1 tc1 st1 w1 = (Ok st1', w1')
    /\ writes w1' = writes w1 ++ result_writes cfg1 [r1]
    /\ convert_testcase cfg2 start2 sl2 spl2 spk2 tc2 st2 w2 = (Ok st2', w2')
    /\ writes w2' = writes w2 ++ result_writes cfg2 [r2]
    /\ r_historyId r1
       = stable_hash (history_key (PyStr.or_str (el_get tc1 "classname") "")
                                  (PyStr.or_str (el_get tc1 "name") "test"))
    /\ r_historyId r1 = r_historyId r2.
Proof.
  intros Hc Hn. destruct st1 as [cur1 c1], st2 as [cur2 c2].
  eexists _, _, _, _, _, _.
  split; [apply convert_testcase_run|]. split; [done|].
  split; [apply convert_testcase_run|]. split; [done|].
  rewrite !case_result_history. unfold case_classname, case_name.
  by rewrite Hc, Hn.
Qed.

(** Two runs over cases named alike: other attributes, configuration,
    cursor and world differ. *)
Lemma history_id_deterministic_witness :
  exists r1 r2 st1' st2' w1' w2',
    convert_testcase Demo.cfg 1000 [] [] []
      (Demo.testcase "com.example.FooTest" "testBar" "1.5")
      (1000, empty_container "u" "S" 1000) Demo.world = (Ok st1', w1')
    /\ writes w1' = writes Demo.world ++ result_writes Demo.cfg [r1]
    /\ convert_testcase (mkConfig "elsewhere" "::" "Top" "pytest") 5 [] [] []
      (Elem "testcase" [("name", "testBar"); ("classname", "com.example.FooTest")]
            None [Elem "failure" [] None []])
      (77, empty_container "v" "T" 5) (with_run Demo.world 3 4 []) = (Ok st2', w2')
    /\ r_historyId r1 = r_historyId r2.
Proof.
  destruct (history_id_deterministic Demo.cfg (mkConfig "elsewhere" "::" "Top" "pytest")
              1000 5 [] [] [] [] [] []
              (Demo.testcase "com.example.FooTest" "testBar" "1.5")
              (Elem "testcase" [("name", "testBar"); ("classname", "com.example.FooTest")]
                    None [Elem "failure" [] None []])
              (1000, empty_container "u" "S" 1000) (77, empty_container "v" "T" 5)
              Demo.world (with_run Demo.world 3 4 []) eq_refl eq_refl)
    as (r1 & r2 & s1 & s2 & w1' & w2' & H1 & Hw1 & H2 & _ & _ & Heq).
  exists r1, r2, s1, s2, w1', w2'. repeat split; assumption.
Defined.

(** The identifier of [com.example.FooTest.testBar] is the MD5 digest of
    that name. *)
Example history_id_of_testBar :
  map r_historyId
      (written_results
         (convert_suite "in.xml" Demo.cfg
            (Demo.suite "S" [Demo.testcase "com.example.FooTest" "testBar" "1.5"])
            Demo.world).2)
  = ["8b7b425eb214ca164caa7d5209149c73"].
Proof. by vm_compute. Qed.

(** C10. The name of a case is never empty: an absent or empty [name]
    attribute is replaced by "test". So the result's [name] and [fullName]
    are non-empty, its labels hold [testMethod] with that name, the joined
    fully-qualified name is non-empty, and [historyId] is the hash of that
    joined name: the [classname + "::" + name] fallback is never taken. *)
Theorem case_name_never_empty cfg suite_start suite_labels sp_labels sp_links
    tc cur c w :
  exists r st' w',
    convert_testcase cfg suite_start suite_labels sp_labels sp_links tc (cur, c) w
      = (Ok st', w')
    /\ writes w' = writes w ++ result_writes cfg [r]
    /\ (el_get tc "name" = None \/ el_get tc "name" = Some "" -> r_name r = "test")
    /\ (forall n, el_get tc "name" = Some n -> n <> "" -> r_name r = n)
    /\ r_name r <> ""
    /\ r_fullName r <> ""
    /\ mkLabel "testMethod" (r_name r) ∈ r_labels r
    /\ PyStr.join "." (truthy_parts [(split_classname (case_classname tc)).1;
                                     (split_classname (case_classname tc)).2;
                                     r_name r]) <> ""
    /\ r_fullName r
       = PyStr.join "." (truthy_parts [(split_classname (case_classname tc)).1;
                                       (split_classname (case_classname tc)).2;
                                       r_name r])
    /\ r_historyId r = stable_hash (r_fullName r).
Proof.
  eexists _, _, _. split; [apply convert_testcase_run|]. split; [done|].
  pose proof (case_name_truthy tc) as Hn.
  pose proof (case_full_name_truthy tc) as Hf.
  unfold case_result.
  cbn [r_name r_fullName r_labels r_historyId]. rewrite Hf.
  split. { unfold case_name. by intros [-> | ->]. }
  split. { unfold case_name. intros n -> Hne. by destruct n. }
  split; [by apply truthy_true_iff|].
  split; [by apply truthy_true_iff|].
  split.
  { unfold fixed_labels. rewrite Hn.
    rewrite !elem_of_app. left. right. right. right. left.
    by apply list_elem_of_singleton. }
  split; [apply truthy_true_iff; exact Hf|]. done.
Qed.

(** The theorem at a case without [name]: it is called "test". *)
Lemma case_name_never_empty_witness :
  exists r st' w',
    convert_testcase Demo.cfg 1000 [] [] []
      (Elem "testcase" [("classname", "a.B")] None [])
      (1000, empty_container "u" "S" 1000) Demo.world = (Ok st', w')
    /\ r_name r = "test" /\ r_fullName r <> "".
Proof.
  destruct (case_name_never_empty Demo.cfg 1000 [] [] []
              (Elem "testcase" [("classname", "a.B")] None [])
              1000 (empty_container "u" "S" 1000) Demo.world)
    as (r & st' & w' & Hrun & _ & Hnone & _ & _ & Hfull & _).
  exists r, st', w'. split; [exact Hrun|]. split; [|exact Hfull].
  apply Hnone. by left.
Defined.

(* ================================================================== *)
(** * The hierarchy labels of a suite (C6) *)
(* ================================================================== *)

Section Split.

(** A split always yields at least one part. *)
Lemma split_go_nonempty sep s : forall skip cur,
  PyStr.split_go sep skip cur s <> [].
Proof.
  induction s as [|c s IH]; intros skip cur; cbn [PyStr.split_go]; [done|].
  destruct skip; [|apply IH].
  destruct (String.prefix sep (String c s)); [done | apply IH].
Qed.

Lemma prefix_split p : forall s,
  String.prefix p s = true -> exists rest, s = p +:+ rest.
Proof.
  induction p as [|a p IH]; intros s H; [by exists s|].
  apply prefix_cons_inv in H as (k & -> & H).
  destruct (IH k H) as [rest ->]. by exists rest.
Qed.

(** The scan passes the rest of a separator it has matched. *)
Lemma split_go_skip sep cur t : forall rest,
  PyStr.split_go sep (String.length t) cur (t +:+ rest)
  = PyStr.split_go sep 0 cur rest.
Proof. induction t as [|a t IH]; intros rest; [done | apply IH]. Qed.

Lemma join_cons sep p ps :
  ps <> [] -> PyStr.join sep (p :: ps) = p +:+ sep +:+ PyStr.join sep ps.
Proof. by destruct ps. Qed.

Lemma string_app_nil_r s : s +:+ "" = s.
Proof. apply chars_inj. by rewrite chars_app, app_nil_r. Qed.

Lemma rev_cons_app c cur s :
  String.rev (String c cur) +:+ s = String.rev cur +:+ String c s.
Proof.
  apply chars_inj. rewrite !chars_app, !chars_rev. cbn.
  by rewrite <- app_assoc.
Qed.

(** Joining the parts of a split with the separator gives the text back. *)
Lemma join_split_go sep : sep <> "" -> forall n s cur,
  (String.length s <= n)%nat ->
  PyStr.join sep (PyStr.split_go sep 0 cur s) = String.rev cur +:+ s.
Proof.
  intros Hsep. induction n as [|n IH]; intros s cur Hn.
  - destruct s; [|cbn in Hn; lia]. cbn. by rewrite string_app_nil_r.
  - destruct s as [|c s]; [cbn; by rewrite string_app_nil_r|].
    cbn [PyStr.split_go].
    destruct (String.prefix sep (String c s)) eqn:Hp.
    + apply prefix_split in Hp as [rest Hrest].
      destruct sep as [|a sep']; [done|].
      change (String a sep' +:+ rest) with (String a (sep' +:+ rest)) in Hrest.
      injection Hrest as -> ->. cbn [String.length Nat.pred].
      rewrite split_go_skip, join_cons by apply split_go_nonempty.
      rewrite IH.
      * apply chars_inj. rewrite !chars_app. cbn. by rewrite chars_app.
      * cbn in Hn.
        assert (String.length (sep' +:+ rest)
                = (String.length sep' + String.length rest)%nat) as Hl.
        { clear. induction sep' as [|b t IHt]; [done|].
          change (String b t +:+ rest) with (String b (t +:+ rest)).
          cbn. by rewrite IHt. }
        rewrite Hl in Hn. lia.
    + rewrite IH by (cbn in Hn; lia). apply rev_cons_app.
Qed.

Lemma join_split s sep raw :
  py_split s sep = Ok raw -> PyStr.join sep raw = s.
Proof.
  unfold py_split. destruct (PyStr.truthy sep) eqn:Hsep; [|done].
  intros [= <-]. apply truthy_true_iff in Hsep.
  by rewrite (join_split_go sep Hsep (String.length s) s "").
Qed.

Lemma string_app_assoc s t u : (s +:+ t) +:+ u = s +:+ t +:+ u.
Proof. apply chars_inj. by rewrite !chars_app, app_assoc. Qed.

Lemma chars_length s : length (list_ascii_of_string s) = String.length s.
Proof. induction s as [|c s IH]; cbn; [done | by rewrite IH]. Qed.

Lemma string_length_app s t :
  String.length (s +:+ t) = (String.length s + String.length t)%nat.
Proof. by rewrite <- !chars_length, chars_app, length_app. Qed.

Lemma string_length_rev s : String.length (String.rev s) = String.length s.
Proof. by rewrite <- !chars_length, chars_rev, length_rev. Qed.

(** Two ways of cutting one text at the same place agree. *)
Lemma string_app_inj_length s t s' t' :
  String.length s = String.length s' -> s +:+ t = s' +:+ t' -> s = s' /\ t = t'.
Proof.
  intros Hl H. apply (f_equal list_ascii_of_string) in H.
  rewrite !chars_app in H. apply app_inj_1 in H as [H1 H2].
  - split; by apply chars_inj.
  - by rewrite !chars_length.
Qed.

(** The scan cuts the text as [split_of] says, provided no separator
    starts inside the part being read. *)
Lemma split_go_spec sep : sep <> "" -> forall n s cur,
  (String.length s <= n)%nat ->
  (forall a b, String.rev cur +:+ s = a +:+ sep +:+ b ->
               (String.length cur <= String.length a)%nat) ->
  split_of sep (String.rev cur +:+ s) (PyStr.split_go sep 0 cur s).
Proof.
  intros Hsep. induction n as [|n IH]; intros s cur Hn Hinv.
  - destruct s; [|cbn in Hn; lia]. cbn [PyStr.split_go].
    rewrite string_app_nil_r in *. apply split_last. intros (a & b & Hab).
    pose proof (Hinv a b Hab) as Hle.
    apply (f_equal String.length) in Hab.
    rewrite string_length_rev, !string_length_app in Hab.
    destruct sep; [done | cbn in Hab; lia].
  - destruct s as [|c s].
    { cbn [PyStr.split_go]. rewrite string_app_nil_r in *. apply split_last.
      intros (a & b & Hab). pose proof (Hinv a b Hab) as Hle.
      apply (f_equal String.length) in Hab.
      rewrite string_length_rev, !string_length_app in Hab.
      destruct sep; [done | cbn in Hab; lia]. }
    cbn [PyStr.split_go].
    destruct (String.prefix sep (String c s)) eqn:Hp.
    + apply prefix_split in Hp as [rest Hrest].
      destruct sep as [|a0 sep']; [done|].
      change (String a0 sep' +:+ rest) with (String a0 (sep' +:+ rest)) in Hrest.
      injection Hrest as -> ->. cbn [String.length Nat.pred].
      rewrite split_go_skip.
      change (String a0 (sep' +:+ rest)) with (String a0 sep' +:+ rest) in *.
      apply split_cut.
      * intros a b Hab.
        assert (Hab' : String.rev cur +:+ String a0 sep' +:+ rest
                       = a +:+ String a0 sep' +:+ b +:+ rest).
        { rewrite <- (string_app_assoc (String.rev cur)), Hab.
          by rewrite !string_app_assoc. }
        pose proof (Hinv a (b +:+ rest) Hab') as Hle.
        apply (f_equal String.length) in Hab.
        rewrite !string_length_app, string_length_rev in Hab.
        destruct b; [done | cbn in Hab; lia].
      * apply (IH rest "").
        -- rewrite string_length_app in Hn. cbn in Hn. lia.
        -- intros a b _. cbn. lia.
    + rewrite <- rev_cons_app. apply IH; [cbn in Hn; lia|].
      intros a b Hab. rewrite rev_cons_app in Hab.
      pose proof (Hinv a b Hab) as Hle. cbn [String.length].
      destruct (decide (String.length cur = String.length a)) as [He|]; [|lia].
      exfalso. rewrite <- string_length_rev in He.
      apply string_app_inj_length in Hab as [_ Hab]; [|done].
      pose proof (startswith_app sep b) as Hs. unfold PyStr.startswith in Hs.
      rewrite <- Hab in Hs. congruence.
Qed.

(** [str.split] with a non-empty separator cuts the text as [split_of] says. *)
Lemma py_split_spec s sep raw :
  py_split s sep = Ok raw -> split_of sep s raw.
Proof.
  unfold py_split. destruct (PyStr.truthy sep) eqn:Hsep; [|done].
  intros [= <-]. apply truthy_true_iff in Hsep.
  apply (split_go_spec sep Hsep (String.length s) s ""); [done|].
  intros a b _. cbn. lia.
Qed.

(** No part of a split contains the separator. *)
Lemma split_of_no_separator sep s parts :
  sep <> "" -> split_of sep s parts -> Forall (fun r => ~ occurs_in sep r) parts.
Proof.
  intros Hsep. induction 1 as [s Hs | r rest parts Hr _ IH].
  - by constructor.
  - constructor; [|done]. intros (a & b & ->).
    specialize (Hr a (b +:+ sep)). rewrite !string_app_assoc in Hr.
    specialize (Hr eq_refl). destruct b; [|done].
    by destruct sep.
Qed.

End Split.

Section Trim.

Lemma lstrip_spec s : exists l, s = l +:+ PyStr.lstrip s /\ whitespace l.
Proof.
  induction s as [|c s (l & IH & Hl)]; [by exists ""; split; [|constructor]|].
  cbn [PyStr.lstrip]. destruct (PyStr.isspace c) eqn:Hc.
  - exists (String c l). split; [|by constructor].
    change (String c l +:+ PyStr.lstrip s) with (String c (l +:+ PyStr.lstrip s)).
    by rewrite <- IH.
  - exists "". split; [done | constructor].
Qed.

Lemma rstrip_spec s : exists r, s = PyStr.rstrip s +:+ r /\ whitespace r.
Proof.
  unfold PyStr.rstrip. destruct (lstrip_spec (String.rev s)) as (l & Hl & Hw).
  exists (String.rev l). split.
  - apply (f_equal list_ascii_of_string) in Hl.
    rewrite chars_app, chars_rev in Hl. apply (f_equal (@rev ascii)) in Hl.
    rewrite rev_involutive, rev_app_distr in Hl.
    apply chars_inj. by rewrite chars_app, !chars_rev.
  - unfold whitespace. rewrite chars_rev. by apply List.Forall_rev.
Qed.

(** [str.strip] removes whitespace, and only whitespace, from both ends. *)
Lemma strip_trim_of s : trim_of s (PyStr.strip s).
Proof.
  split; [apply strip_trimmed|]. unfold PyStr.strip.
  destruct (lstrip_spec s) as (l & Hl & Hwl).
  destruct (rstrip_spec (PyStr.lstrip s)) as (r & Hr & Hwr).
  exists l, r. split; [|done]. by rewrite <- Hr.
Qed.

Lemma map_strip_trim_of raw : Forall2 trim_of raw (map PyStr.strip raw).
Proof. induction raw; constructor; [apply strip_trim_of | done]. Qed.

End Trim.

(** C6. [derive_suite_labels] gives no label for an empty suite name.
    Otherwise (the separator being non-empty, as [str.split] requires) it
    splits the name on the separator, cutting at every separator from the
    left, so that the parts joined by the separator give the name back and
    no part contains the separator, and trims each part: the whitespace at
    its two ends, and nothing else, is removed. There is at least one part,
    and: three parts or more give [parentSuite = part 0], [suite = part 1],
    [subSuite =] the remaining parts joined by the separator, in that
    order; two parts give [parentSuite = part 0], [suite = part 1]; one
    part gives [parentSuite = default_parent], [suite = part 0] when it is
    non-empty and nothing when it is empty. *)
Theorem derive_suite_labels_cases ts_name sep default_parent :
  (ts_name = "" -> derive_suite_labels ts_name sep default_parent = Ok [])
  /\ (ts_name <> "" -> sep <> "" ->
      exists raw parts labels,
        split_of sep ts_name raw
        /\ PyStr.join sep raw = ts_name
        /\ Forall (fun r => ~ occurs_in sep r) raw
        /\ Forall2 trim_of raw parts
        /\ py_split ts_name sep = Ok raw
        /\ parts = map PyStr.strip raw
        /\ derive_suite_labels ts_name sep default_parent = Ok labels
        /\ (1 <= length parts)%nat
        /\ ((3 <= length parts)%nat ->
              exists p0 p1,
                parts !! 0%nat = Some p0
                /\ parts !! 1%nat = Some p1
                /\ labels = [mkLabel "parentSuite" p0; mkLabel "suite" p1;
                             mkLabel "subSuite" (PyStr.join sep (drop 2 parts))])
        /\ (length parts = 2%nat ->
              exists p0 p1,
                parts = [p0; p1]
                /\ labels = [mkLabel "parentSuite" p0; mkLabel "suite" p1])
        /\ (length parts = 1%nat ->
              exists p0,
                parts = [p0]
                /\ (p0 <> "" -> labels = [mkLabel "parentSuite" default_parent;
                                          mkLabel "suite" p0])
                /\ (p0 = "" -> labels = []))).
Proof.
  split.
  - by intros ->.
  - intros Hname Hsep.
    pose proof (join_split ts_name sep) as Hjoin.
    pose proof (py_split_spec ts_name sep) as Hspec.
    unfold derive_suite_labels. unfold py_split in *.
    apply truthy_true_iff in Hname, Hsep. rewrite Hname. rewrite Hsep in *.
    cbn [exc_bind].
    pose proof (split_go_nonempty sep ts_name 0 "") as Hne.
    specialize (Hspec _ eq_refl). specialize (Hjoin _ eq_refl).
    apply truthy_true_iff in Hsep.
    pose proof (split_of_no_separator sep _ _ Hsep Hspec) as Hfree.
    revert Hspec Hjoin Hfree Hne.
    generalize (PyStr.split_go sep 0 "" ts_name). intros raw Hspec Hjoin Hfree Hne.
    exists raw, (map PyStr.strip raw). eexists.
    split; [done|]. split; [done|]. split; [done|].
    split; [apply map_strip_trim_of|]. split; [done|]. split; [done|].
    split; [reflexivity|].
    destruct raw as [|r0 [|r1 [|r2 rest]]]; [done|..]; cbn.
    + split; [lia|]. split; [lia|]. split; [lia|]. intros _.
      eexists. split; [done|]. split.
      * intros Hp%truthy_true_iff. by rewrite Hp.
      * by intros ->.
    + split; [lia|]. split; [lia|]. split; [|lia]. intros _. by eexists _, _.
    + split; [lia|]. split; [|split; lia]. intros _. by eexists _, _.
Qed.

(** The theorem at a suite name of four parts with blanks around them. *)
Lemma derive_suite_labels_cases_witness :
  exists raw parts labels,
    split_of " / " "Web /  Checkout  / Cart / Items " raw
    /\ Forall2 trim_of raw parts
    /\ derive_suite_labels "Web /  Checkout  / Cart / Items " " / " "Tests"
       = Ok labels
    /\ raw = ["Web"; " Checkout "; "Cart"; "Items "]
    /\ parts = ["Web"; "Checkout"; "Cart"; "Items"]
    /\ labels = [mkLabel "parentSuite" "Web"; mkLabel "suite" "Checkout";
                 mkLabel "subSuite" "Cart / Items"].
Proof.
  destruct (derive_suite_labels_cases "Web /  Checkout  / Cart / Items "
              " / " "Tests") as [_ H].
  destruct H as (raw & parts & labels & Hsplit & _ & _ & Htrim & Hraw & Hparts
                 & Hd & _ & H3 & _); [discriminate..|].
  vm_compute in Hraw. injection Hraw as Hraw.
  rewrite <- Hraw in Hparts. vm_compute in Hparts.
  destruct H3 as (p0 & p1 & E0 & E1 & Hl); [rewrite Hparts; cbn; lia|].
  rewrite Hparts in E0, E1, Hl. cbn in E0, E1. injection E0 as <-.
  injection E1 as <-. vm_compute in Hl.
  exists raw, parts, labels. by repeat split.
Defined.

(** The examples of the specification and of the docstring. *)
Example derive_suite_labels_examples :
  derive_suite_labels "Web / Checkout / Cart" " / " "Tests"
    = Ok [mkLabel "parentSuite" "Web"; mkLabel "suite" "Checkout";
          mkLabel "subSuite" "Cart"]
  /\ derive_suite_labels "Checkout" " / " "Tests"
    = Ok [mkLabel "parentSuite" "Tests"; mkLabel "suite" "Checkout"]
  /\ derive_suite_labels "" " / " "Tests" = Ok []
  /\ derive_suite_labels "a / b" " / " "Tests"
    = Ok [mkLabel "parentSuite" "a"; mkLabel "suite" "b"]
  /\ derive_suite_labels "a / b / c / d" " / " "Tests"
    = Ok [mkLabel "parentSuite" "a"; mkLabel "suite" "b";
          mkLabel "subSuite" "c / d"]
  /\ derive_suite_labels "   " " / " "Tests" = Ok [].
Proof. repeat split; by vm_compute. Qed.

(** With an empty separator a non-empty name cannot be split:
    [str.split] raises. *)
Example derive_suite_labels_empty_separator :
  derive_suite_labels "Checkout" "" "Tests" = Raise (ValueError "empty separator").
Proof. done. Qed.

(* ================================================================== *)
(** * The timeline of a suite (C7) *)
(* ================================================================== *)

Section Timeline.
Context (cfg : Config) (suite_start : Z).
Context (suite_labels sp_labels : list Label) (sp_links : list Link).


Lemma or_int_positive x y : 0 < x -> or_int x y = x.
Proof. unfold or_int. intros Hx. destruct (Z.eqb_spec x 0); [lia | done]. Qed.

(** With a positive suite start and no negative span, every case starts
    at or after the suite start and does not stop before it starts. *)
Lemma suite_results_bounds us tcs : forall n cur r,
  0 < suite_start -> suite_start <= cur ->
  Forall (fun tc => 0 <= span_ms tc) tcs ->
  r ∈ suite_results cfg suite_start suite_labels sp_labels sp_links
                    us n cur tcs ->
  suite_start <= r_start r /\ r_start r <= r_stop r.
Proof.
  induction tcs as [|tc tcs IH]; intros n cur r Hs Hcur Hsp Hr;
    [by apply elem_of_nil in Hr|].
  apply Forall_cons in Hsp as [Htc Hsp].
  cbn in Hr. apply elem_of_cons in Hr as [-> | Hr].
  - cbn. rewrite or_int_positive by lia. lia.
  - apply IH in Hr; [done..| |done].
    cbn. rewrite or_int_positive by lia. lia.
Qed.


End Timeline.



(** The timeline of three cases of 1.5 s, no [time] and 0.25 s. *)
Example timeline_of_three_cases :
  map (fun r => (r_start r, r_stop r))
      (written_results
         (convert_suite "in.xml" Demo.cfg
            (Demo.suite "S" [Demo.testcase "a.B" "t1" "1.5"; Demo.bare_case;
                             Demo.testcase "a.B" "t3" "0.25"]) Demo.world).2)
  = [(1000, 2500); (2500, 2501); (2501, 2751)].
Proof. by vm_compute. Qed.


(** The cursor handed to [testcase_timing] is [last_stop or suite_start]:
    a stop of exactly 0 is falsy, so after a case of -1 s from a start at
    1000 the next case starts at the suite start again. *)
Example cursor_after_a_stop_at_zero :
  map (fun r => (r_start r, r_stop r))
      (written_results
         (convert_suite "in.xml" Demo.cfg
            (Demo.suite "S" [Demo.testcase "a.B" "t1" "-1"; Demo.bare_case])
            Demo.world).2)
  = [(1000, 0); (1000, 1001)].
Proof. by vm_compute. Qed.

(* ================================================================== *)
(** * Properties mapped to labels, links and parameters (C8) *)
(* ================================================================== *)

Section Routing.

(** The three prefixes exclude one another. *)
Lemma label_not_link k :
  PyStr.startswith k label_prefix = true -> PyStr.startswith k link_prefix = false.
Proof.
  unfold PyStr.startswith, label_prefix, link_prefix. intros H.
  do 9 (apply prefix_cons_inv in H as (? & -> & H)). done.
Qed.

Lemma label_not_param k :
  PyStr.startswith k label_prefix = true -> PyStr.startswith k param_prefix = false.
Proof.
  unfold PyStr.startswith, label_prefix, param_prefix. intros H.
  do 8 (apply prefix_cons_inv in H as (? & -> & H)). done.
Qed.

Lemma link_not_param k :
  PyStr.startswith k link_prefix = true -> PyStr.startswith k param_prefix = false.
Proof.
  unfold PyStr.startswith, link_prefix, param_prefix. intros H.
  do 8 (apply prefix_cons_inv in H as (? & -> & H)). done.
Qed.

(** Each output list is the input filtered by its prefix, in order. *)
Lemma map_properties_eq props :
  map_properties_to_labels_links_params props
  = (map (fun kv => mkLabel (suffix_after label_prefix kv.1) kv.2)
         (with_prefix label_prefix props),
     map (fun kv => mkLink (suffix_after link_prefix kv.1) kv.2)
         (with_prefix link_prefix props),
     map (fun kv => mkParam (suffix_after param_prefix kv.1) kv.2)
         (with_prefix param_prefix props)).
Proof.
  unfold with_prefix.
  induction props as [|[k v] props IH]; [done|].
  cbn [map_properties_to_labels_links_params]. rewrite IH. clear IH.
  rewrite !filter_cons. cbn [fst snd].
  destruct (PyStr.startswith k label_prefix) eqn:Hl.
  { rewrite (label_not_link k Hl), (label_not_param k Hl).
    repeat case_decide; done. }
  destruct (PyStr.startswith k link_prefix) eqn:Hk.
  { rewrite (link_not_param k Hk). repeat case_decide; done. }
  destruct (PyStr.startswith k param_prefix) eqn:Hp;
    repeat case_decide; done.
Qed.

(** A key under a prefix is the prefix followed by the rest of the key. *)
Lemma startswith_suffix_after p k :
  PyStr.startswith k p = true -> k = p +:+ suffix_after p k.
Proof.
  unfold PyStr.startswith. intros [rest ->]%prefix_split.
  by rewrite suffix_after_app.
Qed.

(** What [collect_properties] holds under a non-empty key, read off the
    [property] elements. *)
Lemma collect_properties_entry tc k v :
  k <> "" ->
  (k, v) ∈ collect_properties tc
  <-> exists p, property_named tc k = Some p /\ property_value p = v.
Proof.
  intros Hk. rewrite <- dict_get_elem_of.
  - rewrite collect_properties_fold, (fold_add_property_lookup _ _ Hk).
    unfold property_named.
    destruct (last _) as [p|]; cbn.
    + split; [intros [= <-]; by exists p | by intros (? & [= <-] & <-)].
    + split; [done | by intros (? & ? & _)].
  - rewrite collect_properties_fold. apply fold_add_property_nodup. constructor.
Qed.

(** The entries a prefix selects, named by the rest of their key. *)
Lemma with_prefix_entry {A} (f : string -> string -> A) p x v props :
  (forall x v x' v', f x v = f x' v' -> x = x' /\ v = v') ->
  f x v ∈ map (fun kv => f (suffix_after p kv.1) kv.2) (with_prefix p props)
  <-> (p +:+ x, v) ∈ props.
Proof.
  intros Hf. rewrite list_elem_of_fmap. split.
  - intros ([k v'] & Heq & Hin). cbn [fst snd] in Heq.
    apply Hf in Heq as [-> ->].
    apply list_elem_of_filter in Hin as [Hp Hin]. cbn [fst] in Hp.
    by rewrite <- (startswith_suffix_after p k Hp).
  - intros Hin. exists (p +:+ x, v). cbn [fst snd].
    split; [by rewrite suffix_after_app|].
    apply list_elem_of_filter. split; [apply startswith_app | done].
Qed.

(** The labels, links and parameters of a case, read off its [property]
    elements. *)
Lemma case_property_routing tc :
  (forall x v,
     mkLabel x v ∈ (map_properties_to_labels_links_params (collect_properties tc)).1.1
     <-> exists p, property_named tc ("allure.label." +:+ x) = Some p
                   /\ property_value p = v)
  /\ (forall x v,
     mkLink x v ∈ (map_properties_to_labels_links_params (collect_properties tc)).1.2
     <-> exists p, property_named tc ("allure.link." +:+ x) = Some p
                   /\ property_value p = v)
  /\ (forall x v,
     mkParam x v ∈ (map_properties_to_labels_links_params (collect_properties tc)).2
     <-> exists p, property_named tc ("allure.param." +:+ x) = Some p
                   /\ property_value p = v).
Proof.
  rewrite map_properties_eq. cbn [fst snd].
  split; [|split]; intros x v.
  - rewrite (with_prefix_entry mkLabel label_prefix); [|by intros ???? [= -> ->]].
    by apply collect_properties_entry.
  - rewrite (with_prefix_entry mkLink link_prefix); [|by intros ???? [= -> ->]].
    by apply collect_properties_entry.
  - rewrite (with_prefix_entry mkParam param_prefix); [|by intros ???? [= -> ->]].
    by apply collect_properties_entry.
Qed.

End Routing.

(** C8. [map_properties_to_labels_links_params] routes each entry of the
    mapping by the prefix of its key: the entries under "allure.label."
    become the labels, those under "allure.link." the links and those under
    "allure.param." the parameters, each named by the rest of the key, each
    list in the order of the mapping; entries under no prefix add nothing.
    In the conversion of a suite, the labels of the result of a case are
    the labels fixed by the configuration, the names of the case and the
    suite, followed by the labels of that case's own properties; its links
    are the suite's followed by its own, its parameters its own. These own
    labels, links and parameters are exactly those of the [property]
    elements of the case: [name = "allure.label." + X] with [value = V]
    gives the label [X = V] (the last element of a name deciding its
    value), and likewise for links and parameters. No label of a case's
    properties reaches another result, and the container carries no label
    and no link. *)
Theorem property_routing xml_path cfg ts w :
  (forall props labels links params,
     map_properties_to_labels_links_params props = (labels, links, params) ->
     labels = map (fun kv => mkLabel (suffix_after label_prefix kv.1) kv.2)
                  (with_prefix label_prefix props)
     /\ links = map (fun kv => mkLink (suffix_after link_prefix kv.1) kv.2)
                    (with_prefix link_prefix props)
     /\ params = map (fun kv => mkParam (suffix_after param_prefix kv.1) kv.2)
                     (with_prefix param_prefix props)
     /\ (forall x v, ("allure.label." +:+ x, v) ∈ props <-> mkLabel x v ∈ labels)
     /\ (forall x v, ("allure.link." +:+ x, v) ∈ props <-> mkLink x v ∈ links)
     /\ (forall x v, ("allure.param." +:+ x, v) ∈ props <-> mkParam x v ∈ params))
  /\ (suite_sep cfg <> "" ->
      exists rs c w' suite_labels,
        convert_suite xml_path cfg ts w = (Ok tt, w')
        /\ writes w' = writes w ++ result_writes cfg rs
                         ++ [(container_path cfg (c_uuid c), ContainerDoc c)]
        /\ derive_suite_labels (suite_name xml_path ts) (suite_sep cfg)
                               (default_parent cfg) = Ok suite_labels
        /\ c_links c = []
        /\ length rs = length (el_findall ts "testcase")
        /\ (forall i r, rs !! i = Some r ->
              exists tc own_labels own_links,
                el_findall ts "testcase" !! i = Some tc
                /\ r_labels r
                   = fixed_labels cfg suite_labels (suite_prop_labels ts) tc
                       ++ own_labels
                /\ r_links r = suite_prop_links ts ++ own_links
                /\ (forall x v,
                      mkLabel x v ∈ own_labels
                      <-> exists p,
                            property_named tc ("allure.label." +:+ x) = Some p
                            /\ property_value p = v)
                /\ (forall x v,
                      mkLink x v ∈ own_links
                      <-> exists p,
                            property_named tc ("allure.link." +:+ x) = Some p
                            /\ property_value p = v)
                /\ (forall x v,
                      mkParam x v ∈ r_parameters r
                      <-> exists p,
                            property_named tc ("allure.param." +:+ x) = Some p
                            /\ property_value p = v)
                /\ own_labels
                   = (map_properties_to_labels_links_params
                        (collect_properties tc)).1.1
                /\ own_links
                   = (map_properties_to_labels_links_params
                        (collect_properties tc)).1.2
                /\ r_parameters r
                   = (map_properties_to_labels_links_params
                        (collect_properties tc)).2)).
Proof.
  split.
  - intros props labels links params Heq.
    rewrite map_properties_eq in Heq. injection Heq as <- <- <-.
    split; [done|]. split; [done|]. split; [done|].
    split; [|split]; intros x v; symmetry.
    + by apply (with_prefix_entry mkLabel label_prefix); intros ???? [= -> ->].
    + by apply (with_prefix_entry mkLink link_prefix); intros ???? [= -> ->].
    + by apply (with_prefix_entry mkParam param_prefix); intros ???? [= -> ->].
  - intros Hsep.
    destruct (derive_suite_labels_ok (suite_name xml_path ts) (suite_sep cfg)
                (default_parent cfg) Hsep) as [sl Hsl].
    pose (c := container_of_suite xml_path cfg ts w sl).
    eexists (results_of_suite cfg ts w sl), c, _, sl.
    split; [by apply convert_suite_run|].
    split. { cbn. unfold c at 1, container_of_suite. by rewrite add_children_uuid. }
    split; [done|].
    split. { unfold c, container_of_suite. generalize (results_of_suite cfg ts w sl).
             intros rs. generalize (uuid_src w (uuid_calls w)). intros u.
             unfold empty_container.
             assert (H : forall c, c_links (foldl add_child c rs) = c_links c).
             { induction rs as [|r rs IH]; intros c0; cbn; [done | by rewrite IH]. }
             by rewrite H. }
    split. { unfold results_of_suite. by rewrite suite_results_length. }
    intros i r Hr. apply suite_results_lookup in Hr as (tc & start & Htc & ->).
    destruct (case_property_routing tc) as (Hl & Hk & Hp).
    exists tc. eexists _, _. split; [done|]. split; [reflexivity|].
    split; [reflexivity|]. split; [exact Hl|]. split; [exact Hk|].
    split; [exact Hp|]. split; [done|]. by split.
Qed.

(** The theorem at the property of the specification: in a suite of two
    cases, the first with the property [allure.label.epic = Payments], the
    label [epic = Payments] is among the labels of the first result and not
    among those of the second. *)
Lemma property_routing_witness :
  exists r1 r2 w',
    convert_suite "in.xml" Demo.cfg
      (Demo.suite "Pay"
         [Demo.case_with_property "t1" "allure.label.epic" "Payments";
          Demo.case_with_property "t2" "note" "x"]) Demo.world
    = (Ok tt, w')
    /\ written_results w' = [r1; r2]
    /\ mkLabel "epic" "Payments" ∈ r_labels r1
    /\ mkLabel "epic" "Payments" ∉ r_labels r2.
Proof.
  destruct (property_routing "in.xml" Demo.cfg
              (Demo.suite "Pay"
                 [Demo.case_with_property "t1" "allure.label.epic" "Payments";
                  Demo.case_with_property "t2" "note" "x"]) Demo.world)
    as [_ H].
  destruct H as (rs & c & w' & sl & Hrun & Hw & Hsl & _ & Hlen & Hrs);
    [discriminate|].
  vm_compute in Hlen. destruct rs as [|r1 [|r2 [|]]]; try discriminate Hlen.
  vm_compute in Hsl. injection Hsl as <-.
  destruct (Hrs 0%nat r1 eq_refl) as (tc1 & own1 & ? & Htc1 & Hl1 & _ & Hown1 & _).
  destruct (Hrs 1%nat r2 eq_refl) as (tc2 & own2 & ? & Htc2 & Hl2 & _ & Hown2 & _).
  injection Htc1 as <-. injection Htc2 as <-.
  exists r1, r2, w'. split; [done|]. split.
  { unfold written_results. rewrite Hw. by vm_compute. }
  split.
  - rewrite Hl1. apply elem_of_app. right. apply Hown1.
    eexists. split; [by vm_compute | done].
  - rewrite Hl2. intros [Hfix | Hown]%elem_of_app.
    + vm_compute in Hfix. repeat (apply elem_of_cons in Hfix as [[=] | Hfix]).
      by apply elem_of_nil in Hfix.
    + apply Hown2 in Hown as (p & Hp & _). by vm_compute in Hp.
Defined.

(** A label from the properties of one case is in that case's result and
    in no other document of the suite. *)
Example epic_label_stays_in_its_case :
  let w' := (convert_suite "in.xml" Demo.cfg
               (Demo.suite "Pay"
                  [Demo.case_with_property "t1" "allure.label.epic" "Payments";
                   Demo.case_with_property "t2" "note" "x"]) Demo.world).2 in
  map (fun r => (r_name r, drop 5 (r_labels r))) (written_results w')
  = [("t1", [mkLabel "parentSuite" "Tests"; mkLabel "suite" "Pay";
             mkLabel "epic" "Payments"]);
     ("t2", [mkLabel "parentSuite" "Tests"; mkLabel "suite" "Pay"])]
  /\ map c_links (written_containers w') = [[]].
Proof. by vm_compute. Qed.

(* ================================================================== *)
(** * The command line (C9) *)
(* ================================================================== *)

Section Main.

(** [main] refers to the module [sys], which the file never imports. *)
Lemma sys_is_not_bound w :
  global_name "sys" w = (Raise (NameError "sys"), w).
Proof. done. Qed.

(** Whenever no input file is found, [main] dies of a [NameError] before
    it has printed anything or asked for exit status 2. *)
Lemma main_no_files_raises args w :
  (find_xml_files (arg_input args) w).1 = Ok [] ->
  (main args w).1 = Raise (NameError "sys")
  /\ exit_status (main args w).1 = 1
  /\ writes (main args w).2 = writes w
  /\ stderr (main args w).2 = stderr w
  /\ dirs (main args w).2 = arg_output args :: dirs w.
Proof.
  unfold main, bind, mkdir, find_xml_files. cbn.
  destruct (path_kind w (arg_input args)) as [|found|]; cbn.
  - destruct (String.eqb _ ".xml"); cbn; [done|]. by intros _.
  - intros [= ->]. by cbn.
  - by intros _.
Qed.

(** When [main] returns, the exit status is 0. *)
Lemma main_returns_zero args w u :
  (main args w).1 = Ok u -> exit_status (main args w).1 = 0.
Proof. by intros ->. Qed.

End Main.

(** C9, at an input directory without any XML file: the claim asks for a
    message to the operator and exit status 2; [main] raises
    [NameError: name 'sys' is not defined] instead, which ends the process
    with a traceback and exit status 1. Nothing is written, but the output
    directory has been created. *)
Theorem main_without_input_files :
  path_kind Demo.world "empty-dir" = IsDir []
  /\ (main (Demo.args "empty-dir") Demo.world).1 = Raise (NameError "sys")
  /\ exit_status (main (Demo.args "empty-dir") Demo.world).1 = 1
  /\ exit_status (main (Demo.args "empty-dir") Demo.world).1 <> 2
  /\ stderr (main (Demo.args "empty-dir") Demo.world).2 = []
  /\ writes (main (Demo.args "empty-dir") Demo.world).2 = []
  /\ dirs (main (Demo.args "empty-dir") Demo.world).2 = ["out"].
Proof. by vm_compute. Qed.

(** What the branch would do were [sys] bound: report and exit with 2. *)
Example no_files_branch_after_sys :
  (print_err "No XML files found.";; raise (A := unit) (SystemExit 2)) Demo.world
  = (Raise (SystemExit 2),
     mkWorld (uuid_src Demo.world) 0 (clock_src Demo.world) 0
             (path_kind Demo.world) (xml_docs Demo.world) (resolve Demo.world)
             [] [] [] ["No XML files found."])
  /\ exit_status (Raise (SystemExit 2)) = 2.
Proof. done. Qed.

(** With one input file holding a suite of one case, [main] converts it and
    exits with status 0. *)
Example main_with_one_file :
  let w := mkWorld (uuid_src Demo.world) 0 (clock_src Demo.world) 0
                   (fun _ => IsFile)
                   (fun _ => Some (Demo.suite "S" [Demo.bare_case]))
                   (fun p => "/abs/" +:+ p) [] [] [] [] in
  (main (Demo.args "junit/report.xml") w).1 = Ok tt
  /\ exit_status (main (Demo.args "junit/report.xml") w).1 = 0
  /\ map fst (writes (main (Demo.args "junit/report.xml") w).2)
     = ["out/u1-result.json"; "out/u0-container.json"]
  /\ stdout (main (Demo.args "junit/report.xml") w).2
     = ["Wrote Allure results to: /abs/out"].
Proof. by vm_compute. Qed.

(* ================================================================== *)
(** * Further properties: class names *)
(* ================================================================== *)

Section ClassNames.

Lemma rsplit1_none c s :
  PyStr.rsplit1 c s = None <-> PyStr.contains_char c s = false.
Proof.
  induction s as [|d s IH]; cbn; [done|].
  destruct (PyStr.rsplit1 c s) as [[p q]|].
  - destruct (Ascii.eqb c d); [done|].
    split; [done|]. intros H. by apply IH in H.
  - destruct (Ascii.eqb c d); [done|]. split; [|done]. intros _. by apply IH.
Qed.

(** [rsplit1] cuts at the last occurrence: the text is the two pieces
    around the character, and the second piece is free of it. *)
Lemma rsplit1_some c s : forall p q,
  PyStr.rsplit1 c s = Some (p, q) ->
  s = p +:+ String c q /\ PyStr.contains_char c q = false.
Proof.
  induction s as [|d s IH]; intros p q; cbn; [done|].
  destruct (PyStr.rsplit1 c s) as [[p' q']|] eqn:Hr.
  - intros [= <- <-]. destruct (IH p' q' eq_refl) as [-> Hq]. done.
  - destruct (Ascii.eqb_spec c d) as [<- | ?]; [|done].
    intros [= <- <-]. split; [done|]. by apply rsplit1_none.
Qed.

End ClassNames.

(** X1. [split_classname] cuts a class name at its last dot: the class part
    never contains a dot; when the class name contains a dot, package, dot
    and class put together give the class name back; when it contains none
    (in particular when it is empty) the package is empty and the class is
    the whole class name. *)
Theorem split_classname_round_trip classname :
  PyStr.contains_char "." (split_classname classname).2 = false
  /\ (PyStr.contains_char "." classname = true ->
        classname = (split_classname classname).1 +:+ "."
                      +:+ (split_classname classname).2)
  /\ (PyStr.contains_char "." classname = false ->
        split_classname classname = ("", classname)).
Proof.
  unfold split_classname.
  destruct classname as [|a s]; [done|]. cbn [PyStr.truthy negb].
  destruct (PyStr.contains_char "." (String a s)) eqn:Hc.
  - destruct (PyStr.rsplit1 "." (String a s)) as [[p q]|] eqn:Hr.
    + apply rsplit1_some in Hr as [Heq Hq]. cbn [fst snd].
      split; [done|]. split; [by intros _ | done].
    + apply rsplit1_none in Hr. congruence.
  - cbn [fst snd]. split; [done|]. split; [done | by intros _].
Qed.

(** The theorem at a nested package. *)
Lemma split_classname_round_trip_witness :
  "com.example.FooTest"
  = (split_classname "com.example.FooTest").1 +:+ "."
      +:+ (split_classname "com.example.FooTest").2.
Proof.
  destruct (split_classname_round_trip "com.example.FooTest") as (_ & H & _).
  by apply H.
Defined.

(** X2. The [fullName] of a result: with an empty class name it is the name
    of the case; with a class name without dot, or one whose last dot has
    text on both sides, it is the class name, a dot and the name. A class
    name that starts with its only dot or ends with a dot loses that dot. *)
Theorem full_name_of_classname cfg suite_start suite_labels sp_labels sp_links
    tc cur c w :
  let classname := PyStr.or_str (el_get tc "classname") "" in
  exists r st' w',
  convert_testcase cfg suite_start suite_labels sp_labels sp_links tc (cur, c) w
    = (Ok st', w')
  /\ writes w' = writes w ++ result_writes cfg [r]
  /\ (classname = "" -> r_fullName r = r_name r)
  /\ (classname <> "" -> PyStr.contains_char "." classname = false ->
        r_fullName r = classname +:+ "." +:+ r_name r)
  /\ ((split_classname classname).1 <> "" -> (split_classname classname).2 <> "" ->
        r_fullName r = classname +:+ "." +:+ r_name r)
  /\ ((split_classname classname).1 = "" -> (split_classname classname).2 <> "" ->
        r_fullName r = (split_classname classname).2 +:+ "." +:+ r_name r)
  /\ ((split_classname classname).1 <> "" -> (split_classname classname).2 = "" ->
        r_fullName r = (split_classname classname).1 +:+ "." +:+ r_name r).
Proof.
  cbv zeta. eexists _, _, _. split; [apply convert_testcase_run|]. split; [done|].
  unfold case_result. cbn [r_fullName r_name].
  rewrite case_full_name_truthy. unfold case_full_name, case_classname.
  pose proof (case_name_truthy tc) as Hn.
  destruct (case_name tc) as [|n0 name] eqn:Hname; [done|].
  generalize (PyStr.or_str (el_get tc "classname") ""). intros classname.
  assert (Hparts :
    (PyStr.contains_char "." classname = true ->
       classname = (split_classname classname).1 +:+ "."
                     +:+ (split_classname classname).2)
    /\ (PyStr.contains_char "." classname = false ->
         split_classname classname = ("", classname))).
  { unfold split_classname.
    destruct classname as [|a s]; [done|]. cbn [PyStr.truthy negb].
    destruct (PyStr.contains_char "." (String a s)) eqn:Hc.
    - destruct (PyStr.rsplit1 "." (String a s)) as [[p q]|] eqn:Hr.
      + apply rsplit1_some in Hr as [Heq Hq]. by split.
      + apply rsplit1_none in Hr. congruence.
    - by split. }
  destruct Hparts as [Hdot Hno].
  destruct (split_classname classname) as [pkg cls] eqn:Hs. cbn [fst snd] in *.
  split.
  { intros Hc. rewrite Hc in Hs. by injection Hs as <- <-. }
  split.
  { intros Hne Hnodot. specialize (Hno Hnodot). injection Hno as -> ->.
    by destruct classname. }
  split.
  { intros Hp Hc.
    destruct (PyStr.contains_char "." classname) eqn:Hd.
    - rewrite (Hdot eq_refl). destruct pkg; [done|]. destruct cls; [done|].
      unfold truthy_parts. rewrite !filter_cons, filter_nil.
      cbn [PyStr.truthy]. rewrite !decide_True by done. cbn [PyStr.join].
      apply chars_inj. rewrite !chars_app. by rewrite <- !app_assoc.
    - specialize (Hno eq_refl). by injection Hno as ->. }
  split.
  { intros -> Hc. by destruct cls. }
  intros Hp ->. by destruct pkg.
Qed.

(** Class names with and without package, and with a stray dot. *)
Example full_names :
  map r_fullName
      (written_results
         (convert_suite "in.xml" Demo.cfg
            (Demo.suite "S" [Demo.testcase "com.example.FooTest" "t" "1";
                             Demo.testcase "FooTest" "t" "1";
                             Demo.testcase "" "t" "1";
                             Demo.testcase ".FooTest" "t" "1";
                             Demo.testcase "pkg." "t" "1"]) Demo.world).2)
  = ["com.example.FooTest.t"; "FooTest.t"; "t"; "FooTest.t"; "pkg.t"].
Proof. by vm_compute. Qed.

(* ================================================================== *)
(** * Further properties: the property mapping *)
(* ================================================================== *)

Section Dicts.

(** Two keys under one prefix with the same rest are the same key. *)
Lemma suffix_after_inj p k1 k2 :
  PyStr.startswith k1 p = true -> PyStr.startswith k2 p = true ->
  suffix_after p k1 = suffix_after p k2 -> k1 = k2.
Proof.
  unfold PyStr.startswith.
  intros [r1 ->]%prefix_split [r2 ->]%prefix_split.
  rewrite !suffix_after_app. by intros ->.
Qed.

Lemma with_prefix_names_nodup {A} (f : string -> string -> A) (g : A -> string)
    p props :
  (forall k v, g (f (suffix_after p k) v) = suffix_after p k) ->
  NoDup props.*1 ->
  NoDup (map g (map (fun kv => f (suffix_after p kv.1) kv.2) (with_prefix p props))).
Proof.
  intros Hg Hnd. rewrite map_map.
  induction props as [|[k v] props IH]; [apply NoDup_nil_2|].
  cbn in Hnd. apply NoDup_cons in Hnd as [Hk Hnd].
  unfold with_prefix. rewrite filter_cons. cbn [fst snd].
  case_decide as Hp; [|by apply IH].
  cbn [map fst snd]. apply NoDup_cons. split; [|by apply IH].
  rewrite Hg. intros Hin. apply list_elem_of_fmap in Hin as ([k' v'] & Heq & Hin).
  cbn [fst snd] in Heq. rewrite Hg in Heq.
  apply list_elem_of_filter in Hin as [Hp' Hin]. cbn [fst] in Hp'.
  apply suffix_after_inj in Heq; [|done..]. subst k'.
  apply Hk. apply list_elem_of_fmap. by exists (k, v').
Qed.

End Dicts.

(** X3. [collect_properties] builds a mapping from the [property] elements
    of the first [properties] child: its keys are distinct and never empty,
    and a key holds the value of the last [property] element with that name
    (the empty string when that element has no [value]); a name borne by no
    element is not a key. The copy of the loop that reads the properties of a
    suite behaves alike. *)
Theorem collect_properties_lookup e :
  NoDup (collect_properties e).*1
  /\ dict_get (collect_properties e) "" = None
  /\ (forall k, k <> "" ->
        dict_get (collect_properties e) k
        = property_value
            <$> last (filter (fun p => el_get p "name" = Some k)
                             (property_elements e)))
  /\ suite_properties e = collect_properties e.
Proof.
  rewrite suite_properties_fold, collect_properties_fold.
  split; [apply fold_add_property_nodup, NoDup_nil_2|].
  split; [apply fold_add_property_no_empty_key|].
  split; [|done]. intros k Hk. by apply fold_add_property_lookup.
Qed.

(** A property given twice keeps its first place and its last value; a
    property without name is skipped, one without value is empty. *)
Example collect_properties_example :
  collect_properties
    (Elem "testcase" [] None
       [Elem "properties" [] None
          [Elem "property" [("name", "a"); ("value", "1")] None [];
           Elem "property" [("name", "b")] None [];
           Elem "property" [("value", "lost")] None [];
           Elem "property" [("name", "a"); ("value", "2")] None []];
        Elem "properties" [] None
          [Elem "property" [("name", "c"); ("value", "3")] None []]])
  = [("a", "2"); ("b", "")].
Proof. by vm_compute. Qed.

(** X4. The labels, the links and the parameters that come from the
    properties of one element have pairwise distinct names: a property
    repeated under one name gives one entry, not two. *)
Theorem property_names_distinct e :
  NoDup (map label_name
             (map_properties_to_labels_links_params (collect_properties e)).1.1)
  /\ NoDup (map link_name
             (map_properties_to_labels_links_params (collect_properties e)).1.2)
  /\ NoDup (map param_name
             (map_properties_to_labels_links_params (collect_properties e)).2).
Proof.
  rewrite map_properties_eq. cbn [fst snd].
  assert (Hnd : NoDup (collect_properties e).*1).
  { rewrite collect_properties_fold. apply fold_add_property_nodup, NoDup_nil_2. }
  split; [|split]; by apply with_prefix_names_nodup.
Qed.

(** X5. [map_properties_to_labels_links_params] never yields more entries
    than the mapping has: each entry of the mapping gives one label, one
    link, one parameter or nothing, and the three lists together are as
    long as the mapping exactly when every key bears one of the prefixes. *)
Theorem property_counts props :
  (length (map_properties_to_labels_links_params props).1.1
   + length (map_properties_to_labels_links_params props).1.2
   + length (map_properties_to_labels_links_params props).2
   <= length props)%nat
  /\ ((length (map_properties_to_labels_links_params props).1.1
       + length (map_properties_to_labels_links_params props).1.2
       + length (map_properties_to_labels_links_params props).2
       = length props)%nat
      <-> Forall (fun kv => PyStr.startswith kv.1 label_prefix = true
                            \/ PyStr.startswith kv.1 link_prefix = true
                            \/ PyStr.startswith kv.1 param_prefix = true) props).
Proof.
  induction props as [|[k v] props [IHle IHeq]]; [by split|].
  cbn [map_properties_to_labels_links_params].
  destruct (map_properties_to_labels_links_params props) as [[ls ks] ps].
  cbn [fst snd] in *. rewrite Forall_cons. cbn [fst].
  destruct (PyStr.startswith k label_prefix) eqn:Hl; cbn [fst snd length].
  { split; [lia|]. rewrite <- IHeq. split; [intros; split; [by left | lia] | lia]. }
  destruct (PyStr.startswith k link_prefix) eqn:Hk; cbn [fst snd length].
  { split; [lia|]. rewrite <- IHeq.
    split; [intros; split; [right; by left | lia] | lia]. }
  destruct (PyStr.startswith k param_prefix) eqn:Hp; cbn [fst snd length].
  { split; [lia|]. rewrite <- IHeq.
    split; [intros; split; [right; by right | lia] | lia]. }
  split; [lia|]. split; [lia|]. intros [[?|[?|?]] _]; congruence.
Qed.

(* ================================================================== *)
(** * Further properties: status values and the hash *)
(* ================================================================== *)

(** X6. [map_status] returns one of the four statuses "passed", "failed",
    "broken" and "skipped"; it returns "passed" exactly when the case has no
    [failure], no [error] and no [skipped] child, and that is exactly when
    the detail is empty; any other detail has the two keys [message] and
    [trace], in that order. *)
Theorem map_status_values tc :
  (map_status tc).1 ∈ ["passed"; "failed"; "broken"; "skipped"]
  /\ ((map_status tc).1 = "passed"
      <-> el_find tc "failure" = None /\ el_find tc "error" = None
          /\ el_find tc "skipped" = None)
  /\ ((map_status tc).1 = "passed" <-> (map_status tc).2 = [])
  /\ ((map_status tc).2 = [] \/ (map_status tc).2.*1 = ["message"; "trace"]).
Proof.
  unfold map_status.
  destruct (el_find tc "failure") as [f|]; [cbn; repeat split; try done;
    [set_solver | by intros (? & _) | by right]|].
  destruct (el_find tc "error") as [e|]; [cbn; repeat split; try done;
    [set_solver | by intros (_ & ? & _) | by right]|].
  destruct (el_find tc "skipped") as [s|]; [cbn; repeat split; try done;
    [set_solver | by intros (_ & _ & ?) | by right]|].
  cbn. repeat split; try done; [set_solver | by left].
Qed.

Section Hex.

Lemma le_bytes_length n : forall x, length (MD5.le_bytes n x) = n.
Proof. induction n as [|n IH]; intros x; cbn; [done | by rewrite IH]. Qed.

Lemma le_bytes_range n : forall x,
  Forall (fun b => 0 <= b < 256) (MD5.le_bytes n x).
Proof.
  induction n as [|n IH]; intros x; cbn; [done|].
  apply Forall_cons. split; [|apply IH]. apply Z.mod_pos_bound. lia.
Qed.

Lemma hex_digit_is_hex n : 0 <= n < 16 -> is_hex_digit (MD5.hex_digit n) = true.
Proof.
  intros Hn. rewrite <- (Z2Nat.id n) by lia.
  assert (Hk : (Z.to_nat n < 16)%nat) by lia.
  revert Hk. generalize (Z.to_nat n). intros k Hk.
  do 16 (destruct k as [|k]; [done|]). lia.
Qed.

Lemma hex_length bs : String.length (MD5.hex bs) = (2 * length bs)%nat.
Proof. induction bs as [|b bs IH]; cbn; [done|]. rewrite IH. lia. Qed.

Lemma hex_is_hex bs :
  Forall (fun b => 0 <= b < 256) bs ->
  Forall (fun c => is_hex_digit c = true) (list_ascii_of_string (MD5.hex bs)).
Proof.
  induction 1 as [|b bs Hb _ IH]; cbn; [done|].
  apply Forall_cons. split.
  { apply hex_digit_is_hex. split; [apply Z.div_pos; lia|].
    apply Z.div_lt_upper_bound; lia. }
  apply Forall_cons. split; [|done].
  apply hex_digit_is_hex. apply Z.mod_pos_bound. lia.
Qed.

End Hex.

(** X7. [stable_hash] always returns a string of 32 lowercase hexadecimal
    digits, whatever the name hashed. *)
Theorem stable_hash_format s :
  String.length (stable_hash s) = 32%nat
  /\ Forall (fun c => is_hex_digit c = true)
            (list_ascii_of_string (stable_hash s)).
Proof.
  unfold stable_hash, MD5.hexdigest, MD5.digest.
  destruct (fold_left _ _ MD5.init) as [[[a b] c] d].
  split.
  - rewrite hex_length, !length_app, !le_bytes_length. done.
  - apply hex_is_hex. rewrite !Forall_app. repeat split; apply le_bytes_range.
Qed.

(* ================================================================== *)
(** * Further properties: the suites of a file *)
(* ================================================================== *)

Section Suites.

Lemma el_descendants_tag tag e : forall x,
  x ∈ el_descendants e tag -> el_tag x = tag.
Proof.
  induction e as [t a tx cs IH] using Element_children_ind. intros x. cbn.
  induction IH as [|c cs Hc _ IHcs].
  - by intros ?%elem_of_nil.
  - rewrite !elem_of_app. intros [H | [H | H]].
    + destruct (String.eqb_spec (el_tag c) tag) as [Heq | Hne].
      * apply list_elem_of_singleton in H. by subst.
      * by apply elem_of_nil in H.
    + by apply Hc.
    + by apply IHcs.
Qed.

Lemma el_findall_tag e tag x : x ∈ el_findall e tag -> el_tag x = tag.
Proof.
  unfold el_findall. intros [H _]%list_elem_of_filter.
  by apply String.eqb_eq.
Qed.

(** What [findall(tag)] finds, [findall(".//" + tag)] finds too. *)
Lemma el_findall_descendants e tag x :
  x ∈ el_findall e tag -> x ∈ el_descendants e tag.
Proof.
  destruct e as [t a tx cs]. unfold el_findall. cbn.
  induction cs as [|c cs IH]; [done|].
  rewrite filter_cons. rewrite !elem_of_app.
  case_decide as Hc.
  - rewrite Hc. intros [-> | H]%elem_of_cons.
    + left. by apply list_elem_of_singleton.
    + right. right. by apply IH.
  - intros H. right. right. by apply IH.
Qed.

End Suites.

(** X8. Every suite [convert_file] converts is a [testsuite] element. A
    [testsuite] root is converted alone, whatever suites are nested in it;
    under any other root the suites converted are among the [testsuite]
    elements below the root. *)
Theorem suites_of_are_testsuites root :
  (forall ts, ts ∈ suites_of root -> el_tag ts = "testsuite")
  /\ (el_tag root = "testsuite" -> suites_of root = [root])
  /\ (el_tag root <> "testsuite" ->
        forall ts, ts ∈ suites_of root -> ts ∈ el_descendants root "testsuite").
Proof.
  unfold suites_of.
  destruct (String.eqb_spec (el_tag root) "testsuite") as [Hr | Hr].
  - split; [|split; [done | congruence]].
    intros ts Hts. apply list_elem_of_singleton in Hts. by subst.
  - split; [|split; [congruence|]].
    + intros ts. destruct (String.eqb (el_tag root) "testsuites").
      * apply el_findall_tag.
      * apply el_descendants_tag.
    + intros _ ts. destruct (String.eqb (el_tag root) "testsuites"); [|done].
      apply el_findall_descendants.
Qed.

(** A suite nested in a suite is converted under a foreign root, and only
    there. *)
Example nested_suites :
  let inner := Demo.suite "inner" [] in
  let outer := Demo.suite "outer" [inner] in
  map (fun ts => el_get ts "name") (suites_of outer) = [Some "outer"]
  /\ map (fun ts => el_get ts "name") (suites_of (Elem "testsuites" [] None [outer]))
     = [Some "outer"]
  /\ map (fun ts => el_get ts "name") (suites_of (Elem "report" [] None [outer]))
     = [Some "outer"; Some "inner"].
Proof. by vm_compute. Qed.


(** A suite named by its file, converted with an empty separator. *)
Example empty_separator_stops_the_suite :
  convert_suite "junit/login.xml" (mkConfig "out" "" "Tests" "junit-xml")
                (Elem "testsuite" [] None [Demo.bare_case]) Demo.world
  = (Raise (ValueError "empty separator"), with_run Demo.world 1 1 []).
Proof. by vm_compute. Qed.

Section FileRun.
Context (xml_path : string) (cfg : Config).

Lemma written_results_writes rs :
  omap (fun pd : string * Doc =>
          match pd.2 with ResultDoc r => Some r | _ => None end)
       (result_writes cfg rs) = rs.
Proof.
  unfold result_writes. induction rs as [|r rs IH]; cbn; [done | by f_equal].
Qed.

Lemma written_containers_writes rs :
  omap (fun pd : string * Doc =>
          match pd.2 with ContainerDoc c => Some c | _ => None end)
       (result_writes cfg rs) = [].
Proof. unfold result_writes. induction rs as [|r rs IH]; cbn; done. Qed.



End FileRun.



(* ================================================================== *)
(** * Further properties: the run of [main] *)
(* ================================================================== *)

Section Traces.
Context (cfg : Config).

Lemma result_writes_are_suite_writes rs :
  Forall (is_suite_write cfg) (result_writes cfg rs).
Proof.
  unfold result_writes. induction rs as [|r rs IH]; cbn; [done|].
  apply Forall_cons. split; [left; by exists r | done].
Qed.

(** A suite leaves behind results and containers only, and fails by
    [ValueError] if at all. *)
Lemma convert_suite_trace xml_path ts w :
  exists r n c ws,
    convert_suite xml_path cfg ts w = (r, with_run w n c (writes w ++ ws))
    /\ Forall (is_suite_write cfg) ws
    /\ (r = Ok tt \/ exists msg, r = Raise (ValueError msg))
    /\ (suite_sep cfg <> "" -> r = Ok tt).
Proof.
  destruct (derive_suite_labels (suite_name xml_path ts) (suite_sep cfg)
              (default_parent cfg)) as [sl | e] eqn:Hd.
  - eexists _, _, _, _. split; [by apply convert_suite_run|].
    split; [|split; [by left | done]].
    apply Forall_app. split; [apply result_writes_are_suite_writes|].
    apply Forall_singleton. right.
    exists (container_of_suite xml_path cfg ts w sl).
    unfold container_of_suite at 2. by rewrite add_children_uuid.
  - exists (Raise e), (S (uuid_calls w)), (S (clock_calls w)), [].
    rewrite app_nil_r. split; [by apply convert_suite_raise|].
    split; [done|].
    assert (He : exists msg, e = ValueError msg).
    { unfold derive_suite_labels, py_split in Hd.
      destruct (PyStr.truthy (suite_name xml_path ts)); [|done].
      destruct (PyStr.truthy (suite_sep cfg)); [done|].
      cbn in Hd. injection Hd as <-. eauto. }
    destruct He as [msg ->]. split; [right; eauto|].
    intros Hsep. destruct (derive_suite_labels_ok (suite_name xml_path ts)
      (suite_sep cfg) (default_parent cfg) Hsep) as [ls Hls]. congruence.
Qed.

Lemma convert_suites_trace xml_path suites : forall w,
  exists r n c ws,
    for_each (fun ts (_ : unit) => convert_suite xml_path cfg ts) suites tt w
    = (r, with_run w n c (writes w ++ ws))
    /\ Forall (is_suite_write cfg) ws
    /\ (r = Ok tt \/ exists msg, r = Raise (ValueError msg))
    /\ (suite_sep cfg <> "" -> r = Ok tt).
Proof.
  induction suites as [|ts suites IH]; intros w.
  - exists (Ok tt), (uuid_calls w), (clock_calls w), [].
    rewrite app_nil_r. split; [by destruct w|]. split; [done|]. by split; [left|].
  - destruct (convert_suite_trace xml_path ts w)
      as (r & n & c & ws & Hrun & Hws & Hr & Hok).
    cbn [for_each]. unfold bind at 1. rewrite Hrun.
    destruct Hr as [-> | [msg ->]].
    + destruct (IH (with_run w n c (writes w ++ ws)))
        as (r' & n' & c' & ws' & Hrun' & Hws' & Hr' & Hok').
      exists r', n', c', (ws ++ ws'). split.
      { rewrite Hrun'. unfold with_run. cbn. by rewrite <- app_assoc. }
      split; [by apply Forall_app|]. by split.
    + exists (Raise (ValueError msg)), n, c, ws.
      split; [done|]. split; [done|]. by split; [right; eauto|].
Qed.

(** A file leaves behind results and containers only; it fails by
    [ParseError] when it is not well-formed, having done nothing. *)
Lemma convert_file_trace xml_path w :
  exists r n c ws,
    convert_file xml_path cfg w = (r, with_run w n c (writes w ++ ws))
    /\ Forall (is_suite_write cfg) ws
    /\ conversion_outcome r
    /\ (suite_sep cfg <> "" -> xml_docs w xml_path <> None -> r = Ok tt)
    /\ (xml_docs w xml_path = None ->
          r = Raise ParseError /\ n = uuid_calls w /\ c = clock_calls w /\ ws = []).
Proof.
  unfold convert_file, bind, et_parse.
  destruct (xml_docs w xml_path) as [root|] eqn:Hdoc.
  - destruct (convert_suites_trace xml_path (suites_of root) w)
      as (r & n & c & ws & Hrun & Hws & Hr & Hok).
    exists r, n, c, ws. split; [done|]. split; [done|].
    split; [destruct Hr as [-> | ?]; [by left | by right; right]|].
    split; [by intros ? _; apply Hok | done].
  - exists (Raise ParseError), (uuid_calls w), (clock_calls w), [].
    rewrite app_nil_r. split; [by destruct w|]. split; [done|].
    split; [right; by left|]. by split.
Qed.

Lemma convert_files_trace files : forall w,
  exists r n c ws,
    convert_files cfg files w = (r, with_run w n c (writes w ++ ws))
    /\ Forall (is_suite_write cfg) ws
    /\ conversion_outcome r
    /\ (suite_sep cfg <> "" -> Forall (fun p => xml_docs w p <> None) files ->
          r = Ok tt).
Proof.
  unfold convert_files. induction files as [|p files IH]; intros w.
  - exists (Ok tt), (uuid_calls w), (clock_calls w), [].
    rewrite app_nil_r. split; [by destruct w|]. split; [done|]. by split; [left|].
  - destruct (convert_file_trace p w)
      as (r & n & c & ws & Hrun & Hws & Hr & Hok & _).
    cbn [for_each]. unfold bind at 1. rewrite Hrun.
    destruct r as [[]|e].
    + destruct (IH (with_run w n c (writes w ++ ws)))
        as (r' & n' & c' & ws' & Hrun' & Hws' & Hr' & Hok').
      exists r', n', c', (ws ++ ws'). split.
      { rewrite Hrun'. unfold with_run. cbn. by rewrite <- app_assoc. }
      split; [by apply Forall_app|]. split; [done|].
      intros Hsep [Hp Hfiles]%Forall_cons. by apply Hok'.
    + exists (Raise e), n, c, ws. split; [done|]. split; [done|]. split; [done|].
      intros Hsep [Hp Hfiles]%Forall_cons. by apply Hok.
Qed.


(** The loop over the files returns only if every file was well-formed. *)
Lemma convert_files_ok_docs files : forall w,
  (convert_files cfg files w).1 = Ok tt ->
  Forall (fun p => xml_docs w p <> None) files.
Proof.
  unfold convert_files. induction files as [|p files IH]; intros w Hok; [done|].
  destruct (convert_file_trace p w)
    as (r & n & c & ws & Hrun & _ & _ & _ & Hbad).
  cbn [for_each] in Hok. unfold bind at 1 in Hok. rewrite Hrun in Hok.
  destruct r as [[]|e]; [|done].
  apply Forall_cons. split.
  - intros Hnone. by destruct (Hbad Hnone) as [? _].
  - by apply IH in Hok.
Qed.

End Traces.

Section MainRun.

Lemma find_xml_files_pure input w :
  exists files, find_xml_files input w = (Ok files, w).
Proof.
  unfold find_xml_files. destruct (path_kind w input); [|eauto..].
  destruct (String.eqb _ _); eauto.
Qed.

(** [main] once files have been found: the conversions, then the executor
    file if asked for, then the closing message. *)
Lemma main_with_files args w files :
  (find_xml_files (arg_input args) w).1 = Ok files -> files <> [] ->
  main args w
  = match convert_files (config_of args) files (after_mkdir args w) with
    | (Ok _, w1) =>
        (Ok tt,
         mkWorld (uuid_src w1) (uuid_calls w1) (clock_src w1) (clock_calls w1)
                 (path_kind w1) (xml_docs w1) (resolve w1) (dirs w1)
                 (writes w1
                    ++ (if arg_write_executor args
                        then [(path_join (arg_output args) "executor.json", executor_doc)]
                        else []))
                 (stdout w1 ++ ["Wrote Allure results to: "
                                  +:+ resolve w1 (arg_output args)])
                 (stderr w1))
    | (Raise e, w1) => (Raise e, w1)
    end.
Proof.
  intros Hfind Hne. unfold main, after_mkdir.
  unfold bind at 1. cbn [mkdir].
  unfold bind at 1.
  destruct (find_xml_files_pure (arg_input args) w) as [fs Hfs].
  rewrite Hfs in Hfind. cbn in Hfind. injection Hfind as ->.
  assert (Hfs' : find_xml_files (arg_input args)
            (mkWorld (uuid_src w) (uuid_calls w) (clock_src w) (clock_calls w)
               (path_kind w) (xml_docs w) (resolve w) (arg_output args :: dirs w)
               (writes w) (stdout w) (stderr w))
          = (Ok files,
             mkWorld (uuid_src w) (uuid_calls w) (clock_src w) (clock_calls w)
               (path_kind w) (xml_docs w) (resolve w) (arg_output args :: dirs w)
               (writes w) (stdout w) (stderr w))).
  { unfold find_xml_files in *. cbn. destruct (path_kind w (arg_input args)).
    - destruct (String.eqb _ _); by injection Hfs as <-.
    - by injection Hfs as <-.
    - by injection Hfs as <-. }
  rewrite Hfs'. rewrite bool_decide_false by done.
  unfold bind at 1. unfold ret at 1. unfold bind at 1.
  change (for_each _ files tt) with (convert_files (config_of args) files).
  cbn [mkdir snd].
  destruct (convert_files (config_of args) files _) as [[[]|e] w1]; [|done].
  unfold bind, write_executor, write_json, print, ret.
  destruct (arg_write_executor args); cbn; [done|]. by rewrite app_nil_r.
Qed.

End MainRun.

Section MainFacts.

Lemma suite_writes_no_executor cfg ws :
  Forall (is_suite_write cfg) ws ->
  omap (fun pd : string * Doc =>
          match pd.2 with ExecutorDoc x => Some x | _ => None end) ws = [].
Proof.
  induction 1 as [|pd ws Hpd _ IH]; [done|].
  cbn. destruct Hpd as [[r ->] | [c ->]]; by cbn.
Qed.

End MainFacts.

(** X11. Once [argparse] has accepted the command line, [main] never
    leaves through [sys.exit]: it raises no [SystemExit], so that its exit
    status is never 2. A [NameError] it raises is the one on [sys]: no
    input file was found, and nothing has been written or printed. And
    when no input file is found, [main] does not return. *)
Theorem main_never_exits args w :
  (forall code, (main args w).1 <> Raise (SystemExit code))
  /\ exit_status (main args w).1 <> 2
  /\ (forall name, (main args w).1 = Raise (NameError name) ->
        name = "sys"
        /\ (find_xml_files (arg_input args) w).1 = Ok []
        /\ writes (main args w).2 = writes w
        /\ stdout (main args w).2 = stdout w
        /\ stderr (main args w).2 = stderr w)
  /\ ((find_xml_files (arg_input args) w).1 = Ok [] ->
        forall u, (main args w).1 <> Ok u).
Proof.
  destruct (find_xml_files_pure (arg_input args) w) as [files Hfind].
  destruct files as [|p files].
  - assert (Hnone : (find_xml_files (arg_input args) w).1 = Ok [])
      by by rewrite Hfind.
    destruct (main_no_files_raises args w Hnone) as (Hr & Hs & Hw & He & _).
    assert (Hso : stdout (main args w).2 = stdout w).
    { revert Hnone. unfold main, bind, mkdir, find_xml_files. cbn.
      destruct (path_kind w (arg_input args)) as [|found|]; cbn.
      - destruct (String.eqb _ ".xml"); cbn; [done|]. by intros _.
      - intros [= ->]. by cbn.
      - by intros _. }
    rewrite Hr. split; [done|]. split; [done|]. split; [|done].
    by intros name [= <-].
  - rewrite (main_with_files args w (p :: files)); [|by rewrite Hfind | done].
    destruct (convert_files_trace (config_of args) (p :: files) (after_mkdir args w))
      as (r & n & c & ws & Hrun & _ & Hr & _).
    rewrite Hrun, Hfind. cbn [fst].
    destruct Hr as [-> | [-> | [msg ->]]]; cbn;
      (split; [done|]); (split; [done|]); split; done.
Qed.



(** X13. Whenever [main] returns (exit status 0), at least one input file
    was found and every file found was well-formed; the run has written
    results and containers only, then the executor document if and only if
    [--write-executor] was given, which is then what [executor.json] holds;
    it has printed the closing message and nothing else on the standard
    output, and nothing on the standard error. *)
Theorem main_returns_after_converting args w :
  (main args w).1 = Ok tt ->
  exists files ws,
    (find_xml_files (arg_input args) w).1 = Ok files
    /\ files <> []
    /\ Forall (fun p => xml_docs w p <> None) files
    /\ Forall (is_suite_write (config_of args)) ws
    /\ writes (main args w).2
       = writes w ++ ws
           ++ (if arg_write_executor args
               then [(path_join (arg_output args) "executor.json", executor_doc)]
               else [])
    /\ written_executors (main args w).2
       = written_executors w
           ++ (if arg_write_executor args
               then [mkExecutor "XML Converter" "other" "" "" ""] else [])
    /\ (arg_write_executor args = true ->
          disk (main args w).2 !! path_join (arg_output args) "executor.json"
          = Some executor_doc)
    /\ stdout (main args w).2
       = stdout w ++ ["Wrote Allure results to: " +:+ resolve w (arg_output args)]
    /\ stderr (main args w).2 = stderr w.
Proof.
  intros Hmain.
  destruct (find_xml_files_pure (arg_input args) w) as [files Hfind].
  assert (Hfiles : (find_xml_files (arg_input args) w).1 = Ok files)
    by by rewrite Hfind.
  assert (Hne : files <> []).
  { intros ->. destruct (main_no_files_raises args w Hfiles) as [Hr _].
    by rewrite Hr in Hmain. }
  rewrite (main_with_files args w files Hfiles Hne) in Hmain |- *.
  pose proof (convert_files_ok_docs (config_of args) files (after_mkdir args w))
    as Hdocs.
  destruct (convert_files_trace (config_of args) files (after_mkdir args w))
    as (r & n & c & ws & Hrun & Hws & _).
  rewrite Hrun in Hmain, Hdocs |- *. cbn [fst snd] in Hdocs.
  destruct r as [[]|e]; [|done]. specialize (Hdocs eq_refl).
  exists files, ws. split; [done|]. split; [done|]. split; [done|].
  split; [done|]. cbn.
  split; [by rewrite <- app_assoc|].
  split.
  { unfold written_executors. cbn.
    rewrite !omap_app, (suite_writes_no_executor _ _ Hws).
    destruct (arg_write_executor args); cbn; by rewrite ?app_nil_r. }
  split; [|done].
  intros ->. unfold disk. cbn.
  apply (foldl_insert_lookup_last ∅ (writes w ++ ws) []).
  cbn. apply not_elem_of_nil.
Qed.

(** The theorem at a run over a directory with one file, the executor file
    asked for: the file found is well-formed, and the last document
    written is the executor's. *)
Lemma main_returns_after_converting_witness :
  let w := mkWorld (uuid_src Demo.world) 0 (clock_src Demo.world) 0
                   (fun _ => IsDir ["a.xml"])
                   (fun _ => Some (Demo.suite "S" [Demo.bare_case]))
                   (resolve Demo.world) [] [] [] [] in
  let args := mkArgs "dir" "out" " / " "Tests" "junit-xml" true in
  exists ws,
    Forall (is_suite_write (config_of args)) ws
    /\ writes (main args w).2 = ws ++ [("out/executor.json", executor_doc)]
    /\ written_executors (main args w).2
       = [mkExecutor "XML Converter" "other" "" "" ""]
    /\ stdout (main args w).2 = ["Wrote Allure results to: out"].
Proof.
  cbv zeta.
  destruct (main_returns_after_converting
              (mkArgs "dir" "out" " / " "Tests" "junit-xml" true)
              (mkWorld (uuid_src Demo.world) 0 (clock_src Demo.world) 0
                 (fun _ => IsDir ["a.xml"])
                 (fun _ => Some (Demo.suite "S" [Demo.bare_case]))
                 (resolve Demo.world) [] [] [] []))
    as (files & ws & _ & _ & _ & Hws & Hw & Hx & _ & Hout & _).
  - by vm_compute.
  - exists ws. split; [exact Hws|]. split; [exact Hw|]. split; [exact Hx|].
    exact Hout.
Defined.

(* ================================================================== *)
(** * Further properties: spans and references *)
(* ================================================================== *)

Section Spans.
Context (cfg : Config) (suite_start : Z).
Context (suite_labels sp_labels : list Label) (sp_links : list Link).

(** With a positive suite start and no negative span, the container stops
    where the last case stops: at the cursor plus the spans. *)
Lemma suite_results_total us tcs : forall n cur c,
  0 < suite_start -> suite_start <= cur -> c_stop c = cur ->
  Forall (fun tc => 0 <= span_ms tc) tcs ->
  c_stop (foldl add_child c
            (suite_results cfg suite_start suite_labels sp_labels sp_links
                           us n cur tcs))
  = cur + foldr Z.add 0 (map span_ms tcs)
  /\ foldl (fun _ r => r_stop r) cur
       (suite_results cfg suite_start suite_labels sp_labels sp_links
                      us n cur tcs)
     = cur + foldr Z.add 0 (map span_ms tcs).
Proof.
  induction tcs as [|tc tcs IH]; intros n cur c Hs Hcur Hc Hsp.
  - cbn. split; lia.
  - apply Forall_cons in Hsp as [Htc Hsp]. cbn [suite_results foldl map foldr].
    destruct (IH (S n)
                (r_stop (case_result cfg suite_labels sp_labels sp_links tc (us n)
                           (or_int cur suite_start)))
                (add_child c (case_result cfg suite_labels sp_labels sp_links tc
                                (us n) (or_int cur suite_start)))) as [H1 H2].
    + done.
    + cbn. rewrite or_int_positive by lia. lia.
    + cbn. rewrite or_int_positive by lia. lia.
    + done.
    + rewrite H1, H2. cbn. rewrite or_int_positive by lia. lia.
Qed.

End Spans.

(** X14. When the clock reads a positive instant and no case has a negative
    duration, the span of the container is the sum of the spans of its
    cases: [stop = start + sum], and the last case stops where the container
    stops. *)
Theorem container_span_is_sum xml_path cfg ts w :
  suite_sep cfg <> "" ->
  0 < clock_src w (clock_calls w) ->
  Forall (fun tc => 0 <= span_ms tc) (el_findall ts "testcase") ->
  exists rs c w',
    convert_suite xml_path cfg ts w = (Ok tt, w')
    /\ writes w' = writes w ++ result_writes cfg rs
                     ++ [(container_path cfg (c_uuid c), ContainerDoc c)]
    /\ c_start c = clock_src w (clock_calls w)
    /\ c_stop c
       = c_start c + foldr Z.add 0 (map span_ms (el_findall ts "testcase"))
    /\ (forall r, last rs = Some r -> r_stop r = c_stop c).
Proof.
  intros Hsep Hpos Hsp.
  destruct (derive_suite_labels_ok (suite_name xml_path ts) (suite_sep cfg)
              (default_parent cfg) Hsep) as [sl Hsl].
  pose (rs := results_of_suite cfg ts w sl).
  pose (c := container_of_suite xml_path cfg ts w sl).
  assert (Hst : c_start c = clock_src w (clock_calls w)).
  { unfold c, container_of_suite. by rewrite add_children_start. }
  destruct (suite_results_total cfg (clock_src w (clock_calls w)) sl
              (suite_prop_labels ts) (suite_prop_links ts) (uuid_src w)
              (el_findall ts "testcase") (S (uuid_calls w))
              (clock_src w (clock_calls w))
              (empty_container (uuid_src w (uuid_calls w)) (suite_name xml_path ts)
                               (clock_src w (clock_calls w)))
              Hpos (Z.le_refl _) eq_refl Hsp) as [Hstop Hlast].
  eexists rs, c, _. split; [by apply convert_suite_run|].
  split. { cbn. unfold c at 1, container_of_suite. by rewrite add_children_uuid. }
  split; [done|]. rewrite Hst.
  split; [exact Hstop|].
  intros r Hr. fold (results_of_suite cfg ts w sl) in Hlast. fold rs in Hlast.
  change (c_stop c) with (c_stop (foldl add_child
    (empty_container (uuid_src w (uuid_calls w)) (suite_name xml_path ts)
       (clock_src w (clock_calls w))) rs)).
  fold (results_of_suite cfg ts w sl) in Hstop. fold rs in Hstop.
  rewrite Hstop, <- Hlast.
  clear -Hr. generalize (clock_src w (clock_calls w)). revert r Hr.
  induction rs as [|r0 rs IH] using rev_ind; intros r Hr z; [done|].
  rewrite last_snoc in Hr. injection Hr as ->. by rewrite foldl_app.
Qed.

(** The theorem at cases of 1.5 s, no time and 0.25 s. *)
Lemma container_span_is_sum_witness :
  exists rs c w',
    convert_suite "in.xml" Demo.cfg
      (Demo.suite "S" [Demo.testcase "a.B" "t1" "1.5"; Demo.bare_case;
                       Demo.testcase "a.B" "t3" "0.25"]) Demo.world
    = (Ok tt, w')
    /\ writes w' = writes Demo.world ++ result_writes Demo.cfg rs
                     ++ [(container_path Demo.cfg (c_uuid c), ContainerDoc c)]
    /\ c_stop c = 1000 + (1500 + (1 + (250 + 0))).
Proof.
  destruct (container_span_is_sum "in.xml" Demo.cfg
              (Demo.suite "S" [Demo.testcase "a.B" "t1" "1.5"; Demo.bare_case;
                               Demo.testcase "a.B" "t3" "0.25"]) Demo.world)
    as (rs & c & w' & Hrun & Hw & Hst & Hstop & _).
  - discriminate.
  - done.
  - repeat (apply Forall_cons; split; [by vm_compute|]). apply Forall_nil_2.
  - exists rs, c, w'. split; [exact Hrun|]. split; [exact Hw|].
    rewrite Hstop, Hst. by vm_compute.
Defined.

Section Tokens.
Context (xml_path : string) (cfg : Config).

(** The tokens of one suite: the container takes the first, the results
    the next ones in order. *)
Lemma convert_suite_tokens ts w :
  suite_sep cfg <> "" ->
  exists rs c,
    convert_suite xml_path cfg ts w
    = (Ok tt,
       with_run w (uuid_calls w + suite_docs ts) (S (clock_calls w))
         (writes w ++ result_writes cfg rs
            ++ [(container_path cfg (c_uuid c), ContainerDoc c)]))
    /\ c_children c = map r_uuid rs
    /\ c_uuid c :: c_children c
       = map (uuid_src w) (seq (uuid_calls w) (suite_docs ts)).
Proof.
  intros Hsep.
  destruct (derive_suite_labels_ok (suite_name xml_path ts) (suite_sep cfg)
              (default_parent cfg) Hsep) as [sl Hsl].
  exists (results_of_suite cfg ts w sl), (container_of_suite xml_path cfg ts w sl).
  assert (Hu : c_uuid (container_of_suite xml_path cfg ts w sl)
                = uuid_src w (uuid_calls w)).
  { unfold container_of_suite. by rewrite add_children_uuid. }
  assert (Hch : c_children (container_of_suite xml_path cfg ts w sl)
                = map r_uuid (results_of_suite cfg ts w sl)).
  { unfold container_of_suite. by rewrite add_children_children. }
  split.
  { rewrite (convert_suite_run _ _ _ _ _ Hsl), Hu. unfold suite_docs, with_run.
    do 2 f_equal. lia. }
  split; [done|].
  rewrite Hu, Hch. unfold results_of_suite. by rewrite suite_results_uuids.
Qed.

Lemma convert_suites_tokens suites :
  suite_sep cfg <> "" ->
  forall w, exists ws,
    for_each (fun ts (_ : unit) => convert_suite xml_path cfg ts) suites tt w
    = (Ok tt,
       with_run w (uuid_calls w + sum_list (map suite_docs suites))
                (clock_calls w + length suites) (writes w ++ ws))
    /\ concat (map c_children
                 (omap (fun pd : string * Doc =>
                          match pd.2 with ContainerDoc c => Some c | _ => None end) ws))
       = map r_uuid
           (omap (fun pd : string * Doc =>
                    match pd.2 with ResultDoc r => Some r | _ => None end) ws)
    /\ concat (map (fun c => c_uuid c :: c_children c)
                 (omap (fun pd : string * Doc =>
                          match pd.2 with ContainerDoc c => Some c | _ => None end) ws))
       = map (uuid_src w) (seq (uuid_calls w) (sum_list (map suite_docs suites))).
Proof.
  intros Hsep. induction suites as [|ts suites IH]; intros w.
  - exists []. cbn. unfold ret, with_run. rewrite !Nat.add_0_r, app_nil_r.
    by destruct w.
  - destruct (convert_suite_tokens ts w Hsep) as (rs & c & Hrun & Hch & Htok).
    cbn [for_each]. unfold bind at 1. rewrite Hrun.
    destruct (IH (with_run w (uuid_calls w + suite_docs ts) (S (clock_calls w))
                    (writes w ++ result_writes cfg rs
                       ++ [(container_path cfg (c_uuid c), ContainerDoc c)])))
      as (ws & Hrest & Hkids & Htoks).
    exists (result_writes cfg rs
              ++ [(container_path cfg (c_uuid c), ContainerDoc c)] ++ ws).
    split.
    { rewrite Hrest. unfold with_run. cbn [uuid_src uuid_calls clock_src
        clock_calls path_kind xml_docs resolve dirs writes stdout stderr
        map sum_list sum_list_with length].
      rewrite <- !app_assoc. unfold id. do 2 f_equal; lia. }
    rewrite !omap_app, written_results_writes, written_containers_writes.
    assert (Hc1 : omap (fun pd : string * Doc =>
                          match pd.2 with ContainerDoc c => Some c | _ => None end)
                       [(container_path cfg (c_uuid c), ContainerDoc c)] = [c])
      by done.
    assert (Hc2 : omap (fun pd : string * Doc =>
                          match pd.2 with ResultDoc r => Some r | _ => None end)
                       [(container_path cfg (c_uuid c), ContainerDoc c)] = [])
      by done.
    rewrite Hc1, Hc2. cbn [app map concat].
    split.
    { by rewrite map_app, Hkids, Hch. }
    cbn [uuid_src uuid_calls with_run] in Htoks. rewrite Htoks.
    change (sum_list (suite_docs ts :: map suite_docs suites))
      with (suite_docs ts + sum_list (map suite_docs suites))%nat.
    by rewrite seq_app, map_app, <- Htok.
Qed.

End Tokens.

(** X15. In the conversion of a file, the children of the containers, put
    end to end, are the identifiers of the results written, in the order
    of writing; and the identifiers of each container followed by its
    children are the tokens drawn, in the order of drawing. So, when the
    tokens drawn are distinct, every result is the child of exactly one
    container, and no container is a child. *)
Theorem results_belong_to_one_container xml_path cfg root w :
  xml_docs w xml_path = Some root ->
  suite_sep cfg <> "" ->
  exists w' ws,
    convert_file xml_path cfg w = (Ok tt, w')
    /\ writes w' = writes w ++ ws
    /\ concat (map c_children
                 (omap (fun pd : string * Doc =>
                          match pd.2 with ContainerDoc c => Some c | _ => None end) ws))
       = map r_uuid
           (omap (fun pd : string * Doc =>
                    match pd.2 with ResultDoc r => Some r | _ => None end) ws)
    /\ (NoDup (map (uuid_src w)
                   (seq (uuid_calls w) (sum_list (map suite_docs (suites_of root))))) ->
        NoDup (concat (map (fun c => c_uuid c :: c_children c)
                 (omap (fun pd : string * Doc =>
                          match pd.2 with ContainerDoc c => Some c | _ => None end) ws)))).
Proof.
  intros Hdoc Hsep.
  destruct (convert_suites_tokens xml_path cfg (suites_of root) Hsep w)
    as (ws & Hrun & Hkids & Htoks).
  eexists _, ws. split.
  { unfold convert_file, bind, et_parse. rewrite Hdoc. exact Hrun. }
  split; [done|]. split; [done|]. by rewrite Htoks.
Qed.

(** The theorem at a file of two suites. *)
Lemma results_belong_to_one_container_witness :
  exists w' ws,
    convert_file "in.xml" Demo.cfg
      (mkWorld (uuid_src Demo.world) 0 (clock_src Demo.world) 0
               (path_kind Demo.world)
               (fun _ => Some (Elem "testsuites" [] None
                                 [Demo.suite "A" [Demo.bare_case; Demo.bare_case];
                                  Demo.suite "B" [Demo.bare_case]]))
               (resolve Demo.world) [] [] [] [])
    = (Ok tt, w')
    /\ writes w' = ws
    /\ map c_children (written_containers w') = [["u1"; "u2"]; ["u4"]].
Proof.
  destruct (results_belong_to_one_container "in.xml" Demo.cfg
              (Elem "testsuites" [] None
                 [Demo.suite "A" [Demo.bare_case; Demo.bare_case];
                  Demo.suite "B" [Demo.bare_case]])
              (mkWorld (uuid_src Demo.world) 0 (clock_src Demo.world) 0
                 (path_kind Demo.world)
                 (fun _ => Some (Elem "testsuites" [] None
                                   [Demo.suite "A" [Demo.bare_case; Demo.bare_case];
                                    Demo.suite "B" [Demo.bare_case]]))
                 (resolve Demo.world) [] [] [] [])
              eq_refl)
    as (w' & ws & Hrun & Hw & _); [discriminate|].
  exists w', ws. split; [exact Hrun|]. split; [exact Hw|].
  vm_compute in Hrun. injection Hrun as <-. by vm_compute.
Defined.

(* ================================================================== *)
(** * Further properties: the loop over the cases, piece by piece *)
(* ================================================================== *)

Section LoopPieces.
Context (cfg : Config) (suite_start : Z).
Context (suite_labels sp_labels : list Label) (sp_links : list Link).

Lemma suite_results_app us l1 l2 : forall n cur,
  suite_results cfg suite_start suite_labels sp_labels sp_links us n cur (l1 ++ l2)
  = suite_results cfg suite_start suite_labels sp_labels sp_links us n cur l1
      ++ suite_results cfg suite_start suite_labels sp_labels sp_links us
           (n + length l1)
           (foldl (fun _ r => r_stop r) cur
              (suite_results cfg suite_start suite_labels sp_labels sp_links
                             us n cur l1))
           l2.
Proof.
  induction l1 as [|tc l1 IH]; intros n cur.
  - cbn. by rewrite Nat.add_0_r.
  - cbn [app suite_results foldl length]. rewrite IH.
    by rewrite Nat.add_succ_r.
Qed.

End LoopPieces.

(** X16. The loop over the cases of a suite can be cut anywhere: running it
    over the first cases and then, from the state and the world reached,
    over the remaining ones is running it over all of them. Along the way
    the container keeps its identifier, its name and its start, its [stop]
    never decreases, and its children and the files written only grow at
    the end. *)
Theorem case_loop_composes cfg suite_start suite_labels sp_labels sp_links
    l1 l2 cur c w :
  exists st1 w1 st2 w2,
    for_each (convert_testcase cfg suite_start suite_labels sp_labels sp_links)
             l1 (cur, c) w = (Ok st1, w1)
    /\ for_each (convert_testcase cfg suite_start suite_labels sp_labels sp_links)
                l2 st1 w1 = (Ok st2, w2)
    /\ for_each (convert_testcase cfg suite_start suite_labels sp_labels sp_links)
                (l1 ++ l2) (cur, c) w = (Ok st2, w2)
    /\ c_uuid st2.2 = c_uuid c /\ c_name st2.2 = c_name c
    /\ c_start st2.2 = c_start c
    /\ c_stop c <= c_stop st1.2 <= c_stop st2.2
    /\ (exists more, c_children st2.2 = c_children st1.2 ++ more
                     /\ length more = length l2)
    /\ (exists more, writes w2 = writes w1 ++ more /\ length more = length l2).
Proof.
  eexists _, _, _, _.
  split; [apply for_each_cases_run|].
  split; [apply for_each_cases_run|].
  split.
  { rewrite for_each_cases_run. cbv zeta. rewrite suite_results_app.
    unfold with_run. cbn. rewrite !foldl_app, length_app.
    unfold result_writes. rewrite map_app, <- app_assoc.
    by rewrite Nat.add_assoc. }
  cbn [snd with_run uuid_src uuid_calls writes].
  split. { by rewrite !add_children_uuid. }
  split.
  { assert (H : forall rs c0, c_name (foldl add_child c0 rs) = c_name c0).
    { induction rs as [|r rs IH]; intros c0; cbn; [done | by rewrite IH]. }
    by rewrite !H. }
  split. { by rewrite !add_children_start. }
  split. { split; apply add_children_stop_lower. }
  split.
  { eexists. split; [apply add_children_children|].
    by rewrite length_map, suite_results_length. }
  eexists. split; [done|].
  unfold result_writes. by rewrite length_map, suite_results_length.
Qed.
(* ================================================================== *)
(** * Further properties: the input files *)
(* ================================================================== *)

Section Suffixes.

(** The cut at the last occurrence of a character, the other way round. *)
Lemma rsplit1_app c p q :
  PyStr.contains_char c q = false ->
  PyStr.rsplit1 c (p +:+ String c q) = Some (p, q).
Proof.
  intros Hq. induction p as [|d p IH].
  - change ("" +:+ String c q) with (String c q). cbn [PyStr.rsplit1].
    apply rsplit1_none in Hq. rewrite Hq. by rewrite Ascii.eqb_refl.
  - change (String d p +:+ String c q) with (String d (p +:+ String c q)).
    cbn [PyStr.rsplit1]. by rewrite IH.
Qed.

(** An extension that lower-cases to [xml] has no dot. *)
Lemma xml_extension_no_dot ext :
  PyStr.lower ext = "xml" -> PyStr.contains_char "." ext = false.
Proof.
  destruct ext as [|c1 [|c2 [|c3 [|]]]]; try done.
  cbn [PyStr.lower PyStr.contains_char]. intros [= H1 H2 H3].
  destruct (Ascii.eqb_spec "." c1) as [<- | _]; [by vm_compute in H1|].
  destruct (Ascii.eqb_spec "." c2) as [<- | _]; [by vm_compute in H2|].
  destruct (Ascii.eqb_spec "." c3) as [<- | _]; [by vm_compute in H3|].
  done.
Qed.

(** The suffix test of [find_xml_files], read on the name of the file. *)
Lemma xml_suffix_iff p :
  PyStr.lower (path_suffix p) = ".xml" <-> xml_name (path_name p).
Proof.
  unfold path_suffix, xml_name. split.
  - destruct (PyStr.rsplit1 "." (path_name p)) as [[stem ext]|] eqn:Hr; [|done].
    apply rsplit1_some in Hr as [Hname _].
    destruct stem as [|a stem]; [done|]. destruct ext as [|c q]; [done|].
    intros H. exists (String a stem), (String c q).
    split; [done|]. split; [done|].
    cbn [PyStr.lower] in H |- *. congruence.
  - intros (stem & ext & Hname & Hstem & Hext).
    rewrite Hname. change (stem +:+ "." +:+ ext) with (stem +:+ String "." ext).
    rewrite (rsplit1_app "." stem ext (xml_extension_no_dot ext Hext)).
    destruct stem as [|a stem]; [done|]. destruct ext as [|c q]; [done|].
    change (PyStr.lower (String "." (String c q)))
      with (String (PyStr.lower_char ".") (PyStr.lower (String c q))).
    by rewrite Hext.
Qed.

(** Splitting on one character: the parts of a text cut at an occurrence
    are the parts of the two sides. *)
Lemma split_go_char_app c t : forall s cur,
  PyStr.split_go (String c "") 0 cur (s +:+ String c t)
  = PyStr.split_go (String c "") 0 cur s ++ PyStr.split_go (String c "") 0 "" t.
Proof.
  induction s as [|x s IH]; intros cur.
  - change ("" +:+ String c t) with (String c t). cbn.
    destruct (ascii_dec c c); [|done]. by destruct t.
  - change (String x s +:+ String c t) with (String x (s +:+ String c t)).
    cbn [PyStr.split_go String.prefix String.length Nat.pred].
    destruct (ascii_dec c x) as [<- | Hx].
    + assert (Hp : forall u, String.prefix "" u = true) by by intros [].
      rewrite !Hp. cbn [app]. by rewrite IH.
    + apply IH.
Qed.

Lemma split_go_char_none c s : forall cur,
  PyStr.contains_char c s = false ->
  PyStr.split_go (String c "") 0 cur s = [String.rev cur +:+ s].
Proof.
  induction s as [|x s IH]; intros cur Hs.
  - cbn. by rewrite string_app_nil_r.
  - cbn [PyStr.contains_char] in Hs.
    destruct (Ascii.eqb_spec c x) as [-> | Hx]; [done|].
    cbn [PyStr.split_go String.prefix].
    destruct (ascii_dec c x) as [-> | _]; [done|].
    rewrite IH by done. by rewrite rev_cons_app.
Qed.

(** A run of slashes has no component. *)
Lemma path_parts_slashes t : slashes t -> path_parts t = [].
Proof.
  unfold path_parts, slashes. induction t as [|x t IH]; intros Ht.
  - by vm_compute.
  - apply Forall_cons in Ht as [-> Ht]. cbn [list_ascii_of_string] in *.
    cbn [PyStr.split_go String.prefix String.length Nat.pred].
    destruct (ascii_dec "/" "/"); [|done].
    assert (Hp : String.prefix "" t = true) by by destruct t.
    rewrite Hp. rewrite filter_cons, decide_False by (by intros [? _]).
    by apply IH.
Qed.

(** The name of a path that ends in a component and a run of slashes. *)
Lemma path_name_final dir name trail :
  dir = "" \/ (exists d, dir = d +:+ "/") ->
  PyStr.contains_char "/" name = false -> name <> "" -> name <> "." ->
  slashes trail ->
  path_name (dir +:+ name +:+ trail) = name.
Proof.
  intros Hdir Hname Hne Hdot Htrail.
  assert (Hlast : forall l, default "" (last (l ++ [name])) = name)
    by (intros l; by rewrite last_snoc).
  assert (Hkeep : filter (fun c : string => c <> "" /\ c <> ".") [name] = [name]).
  { by rewrite filter_cons, decide_True, filter_nil. }
  assert (Hmid : exists l, path_parts (dir +:+ name) = l ++ [name]).
  { unfold path_parts. destruct Hdir as [-> | [d ->]].
    - exists []. change ("" +:+ name) with name.
      by rewrite (split_go_char_none "/" name "" Hname).
    - exists (filter (fun c : string => c <> "" /\ c <> ".")
                (PyStr.split_go "/" 0 "" d)).
      rewrite string_app_assoc.
      change (d +:+ "/" +:+ name) with (d +:+ String "/" name).
      rewrite split_go_char_app, filter_app.
      rewrite (split_go_char_none "/" name "" Hname).
      change (String.rev "" +:+ name) with name. by rewrite Hkeep. }
  destruct Hmid as [l Hl]. unfold path_name.
  destruct trail as [|x trail].
  - rewrite string_app_nil_r, Hl. apply Hlast.
  - apply Forall_cons in Htrail as [-> Htrail].
    rewrite <- string_app_assoc. unfold path_parts in *.
    rewrite split_go_char_app, filter_app, Hl.
    fold (path_parts trail). rewrite (path_parts_slashes trail Htrail), app_nil_r.
    apply Hlast.
Qed.

End Suffixes.

(** X17. A single input file is taken if and only if its name has the
    suffix [.xml] in any letter case. For an input path that ends in a name
    (the final component: it follows the last slash before it, if any, and
    may itself be followed by slashes), the name is a non-empty stem, a dot
    and an extension that lower-cases to [xml]. The file is then the one
    file found; a file of another name, like a path that does not exist,
    leaves no file to convert. *)
Theorem single_input_file dir name trail w :
  dir = "" \/ (exists d, dir = d +:+ "/") ->
  PyStr.contains_char "/" name = false -> name <> "" -> name <> "." ->
  slashes trail ->
  path_name (dir +:+ name +:+ trail) = name
  /\ (path_kind w (dir +:+ name +:+ trail) = IsFile ->
      (xml_name name ->
         find_xml_files (dir +:+ name +:+ trail) w
         = (Ok [dir +:+ name +:+ trail], w))
      /\ (~ xml_name name ->
         find_xml_files (dir +:+ name +:+ trail) w = (Ok [], w)))
  /\ (path_kind w (dir +:+ name +:+ trail) = Missing ->
      find_xml_files (dir +:+ name +:+ trail) w = (Ok [], w)).
Proof.
  intros Hdir Hname Hne Hdot Htrail.
  pose proof (path_name_final dir name trail Hdir Hname Hne Hdot Htrail) as Hn.
  split; [done|]. unfold find_xml_files. split; [|by intros ->].
  assert (Hx : xml_name name
               <-> PyStr.lower (path_suffix (dir +:+ name +:+ trail)) = ".xml").
  { by rewrite xml_suffix_iff, Hn. }
  intros ->. rewrite Hx.
  destruct (String.eqb_spec
              (PyStr.lower (path_suffix (dir +:+ name +:+ trail))) ".xml");
    by split.
Qed.

(** The theorem at a file given with a trailing slash and a suffix in
    capitals. *)
Lemma single_input_file_witness :
  let w := mkWorld (uuid_src Demo.world) 0 (clock_src Demo.world) 0
                   (fun _ => IsFile) (fun _ => None) (resolve Demo.world)
                   [] [] [] [] in
  path_name "junit/Report.XML/" = "Report.XML"
  /\ find_xml_files "junit/Report.XML/" w = (Ok ["junit/Report.XML/"], w).
Proof.
  cbv zeta.
  destruct (single_input_file "junit/" "Report.XML" "/"
              (mkWorld (uuid_src Demo.world) 0 (clock_src Demo.world) 0
                 (fun _ => IsFile) (fun _ => None) (resolve Demo.world)
                 [] [] [] []))
    as (Hn & Hfile & _).
  - right. by exists "junit".
  - done.
  - done.
  - done.
  - by repeat constructor.
  - split; [exact Hn|]. destruct (Hfile eq_refl) as [Hyes _].
    apply Hyes. by exists "Report", "XML".
Defined.

(** Names of input files, as [pathlib] reads them, and their suffixes. *)
Example input_file_suffixes :
  map (fun p => (path_name p, PyStr.lower (path_suffix p)))
      ["junit/report.xml"; "junit/REPORT.XML"; "report.xml/"; "report.xml.bak";
       "report"; "junit.d/report"; ".xml"; "junit/./a.Xml"]
  = [("report.xml", ".xml"); ("REPORT.XML", ".xml"); ("report.xml", ".xml");
     ("report.xml.bak", ".bak"); ("report", ""); ("report", ""); (".xml", "");
     ("a.Xml", ".xml")].
Proof. by vm_compute. Qed.

(** A file named with a trailing slash is taken all the same. *)
Example input_file_with_trailing_slash :
  let w := mkWorld (uuid_src Demo.world) 0 (clock_src Demo.world) 0
                   (fun _ => IsFile) (fun _ => None) (resolve Demo.world)
                   [] [] [] [] in
  (find_xml_files "report.xml/" w).1 = Ok ["report.xml/"]
  /\ (find_xml_files "report.txt" w).1 = Ok [].
Proof. by vm_compute. Qed.
